(** * PhantomPay: the offline ledger and its reconciliation protocol

    A shallow embedding of
    - the Dexie store helpers of [src/lib/db.ts],
    - the sync engine [syncOfflineTransactions] of [src/lib/syncEngine.ts],
    - the PL/pgSQL function [process_offline_batch] of the initial schema,
    followed by the properties the specification states about them.

    Conventions.
    - Money is an exact decimal on the server ([NUMERIC]) and has two
      fractional digits by the data model; here an amount is an integer
      number of hundredths, the scale of the [NUMERIC(12,2)] columns, so
      that 100.00 is [10000].  Addition, subtraction and comparison are
      then those of [Z].  A value that does not fit [NUMERIC(12,2)] makes
      the statement that stores it raise, which aborts the whole function.
      Amounts with a finer precision, and the rounding of JavaScript
      numbers on the device, are outside the model.
    - Times are milliseconds since the epoch, as [Date.now()] returns them;
      the clock reading is an explicit argument.  The [timestamp] of an
      entry is such a reading; the server casts it to [BIGINT], which
      cannot fail on a clock reading.  The cast is not part of
      [batch_step]: timestamps are taken to be clock readings, and
      [batch_within_range_returns], which promises a result for any
      batch, states the range ([fits_bigint]).
    - A Dexie table with an auto-incremented primary key is the list of its
      rows in primary-key order, which is the order in which a query on a
      secondary index returns rows with equal index keys.  The [wallet]
      table, keyed by the user id, is a finite map.
    - Optional fields of the TypeScript records are [option]s. *)

From Stdlib Require Import ZArith List Lia.
From stdpp Require Import base option list gmap strings.

Local Open Scope Z_scope.

(** ** Shared types ([src/lib/types.ts]) *)

Inductive TransactionType := credit | debit.

Inductive SyncStatus := pending | syncing | synced | failed | conflict.

#[global] Instance TransactionType_eq_dec : EqDecision TransactionType.
Proof. solve_decision. Defined.

#[global] Instance SyncStatus_eq_dec : EqDecision SyncStatus.
Proof. solve_decision. Defined.

Record OfflineTransaction := mkTx {
  offline_id : string;
  user_id : string;
  recipient_id : option string;
  amount : Z;
  tx_type : TransactionType;
  description : option string;
  timestamp : Z;
  sync_status : SyncStatus;
  signature : option string;
  retry_count : option Z;
  last_sync_attempt : option Z
}.

Record WalletState := mkWallet {
  wallet_id : string;
  cached_balance : Z;
  shadow_balance : Z;
  last_updated : Z;
  pending_debits : option Z;
  pending_credits : option Z;
  last_sync_success : option Z
}.

Record SyncResponse := mkResponse {
  error : option string;
  processed_ids : list string;
  failed_ids : list (string * string);
  new_balance : option Z
}.

#[global] Instance OfflineTransaction_eq_dec : EqDecision OfflineTransaction.
Proof. solve_decision. Defined.

#[global] Instance WalletState_eq_dec : EqDecision WalletState.
Proof. solve_decision. Defined.

(** A call either returns a value or raises (a PostgreSQL exception, a
    rejected promise). *)
Inductive outcome (A : Type) :=
  | Returned (a : A)
  | Raised (msg : string).
Arguments Returned {A} a.
Arguments Raised {A} msg.

#[global] Instance outcome_bind : MBind outcome := fun A B k m =>
  match m with
  | Returned a => k a
  | Raised msg => Raised msg
  end.

(** ** The authoritative store (SQL schema) *)

Record Profile := mkProfile {
  balance : Z;
  last_synced_at : option Z
}.

Record LedgerRow := mkRow {
  row_user_id : string;
  row_amount : Z;
  row_type : TransactionType;
  row_description : string;
  row_status : SyncStatus;
  row_offline_id : string;
  row_signature : string
}.

Record Server := mkServer {
  profiles : gmap string Profile;
  sql_transactions : list LedgerRow
}.

(** [NUMERIC(12,2)]: at most ten digits before the decimal point. *)
Definition numeric_12_2 (v : Z) : bool := Z.abs v <? 10 ^ 12.

(** [SELECT COUNT( * ) FROM transactions WHERE offline_id = tx_offline_id] *)
Definition existing_count (oid : string) (rows : list LedgerRow) : nat :=
  length (filter (fun r => row_offline_id r = oid) rows).

(** The local variables of [process_offline_batch] that the loop updates,
    with the rows of [transactions] as the loop sees them. *)
Record BatchState := mkBatch {
  b_processed_ids : list string;
  b_failed_ids : list (string * string);
  b_new_balance : Z;
  b_rows : list LedgerRow
}.

(** [INSERT INTO transactions (...) VALUES (user_uuid, tx_amount, tx_type,
    tx_description, 'synced', tx_offline_id, tx_signature)] *)
Definition ledger_row (user_uuid : string) (tx : OfflineTransaction) : LedgerRow :=
  {| row_user_id := user_uuid;
     row_amount := amount tx;
     row_type := tx_type tx;
     row_description := default EmptyString (description tx);
     row_status := synced;
     row_offline_id := offline_id tx;
     row_signature := default EmptyString (signature tx) |}.

(** [tx_signature IS NULL OR tx_signature = ''] *)
Definition missing_signature (sig : option string) : bool :=
  match sig with
  | None => true
  | Some s => bool_decide (s = EmptyString)
  end.

Definition report_processed (st : BatchState) (oid : string) : BatchState :=
  {| b_processed_ids := b_processed_ids st ++ [oid];
     b_failed_ids := b_failed_ids st;
     b_new_balance := b_new_balance st;
     b_rows := b_rows st |}.

Definition report_failed (st : BatchState) (oid reason : string) : BatchState :=
  {| b_processed_ids := b_processed_ids st;
     b_failed_ids := b_failed_ids st ++ [(oid, reason)];
     b_new_balance := b_new_balance st;
     b_rows := b_rows st |}.

(** The tail of the loop body: the balance has been updated to [bal]; the
    row is inserted and the id reported. *)
Definition insert_transaction (user_uuid : string) (st : BatchState)
    (tx : OfflineTransaction) (bal : Z) : outcome BatchState :=
  if numeric_12_2 (amount tx) then
    Returned {| b_processed_ids := b_processed_ids st ++ [offline_id tx];
                b_failed_ids := b_failed_ids st;
                b_new_balance := bal;
                b_rows := b_rows st ++ [ledger_row user_uuid tx] |}
  else Raised "numeric field overflow".

(** One iteration of [FOR tx IN SELECT * FROM jsonb_array_elements(...)]. *)
Definition batch_step (user_uuid : string) (st : BatchState)
    (tx : OfflineTransaction) : outcome BatchState :=
  if (0 <? existing_count (offline_id tx) (b_rows st))%nat then
    Returned (report_processed st (offline_id tx))
  else if missing_signature (signature tx) then
    Returned (report_failed st (offline_id tx) "Missing signature")
  else
    match tx_type tx with
    | debit =>
        if b_new_balance st <? amount tx then
          Returned (report_failed st (offline_id tx) "Insufficient balance")
        else insert_transaction user_uuid st tx (b_new_balance st - amount tx)
    | credit =>
        insert_transaction user_uuid st tx (b_new_balance st + amount tx)
    end.

Fixpoint batch_loop (user_uuid : string) (payload : list OfflineTransaction)
    (st : BatchState) : outcome BatchState :=
  match payload with
  | [] => Returned st
  | tx :: rest =>
      st' ← batch_step user_uuid st tx;
      batch_loop user_uuid rest st'
  end.

Definition error_response (msg : string) : SyncResponse :=
  {| error := Some msg; processed_ids := []; failed_ids := [];
     new_balance := Some 0 |}.

(** [process_offline_batch(payload JSONB)].  [auth_uid] is [auth.uid()],
    [now] is [NOW()]. *)
Definition process_offline_batch (now : Z) (auth_uid : option string)
    (payload : list OfflineTransaction) (s : Server)
    : outcome (SyncResponse * Server) :=
  match auth_uid with
  | None => Returned (error_response "Not authenticated", s)
  | Some user_uuid =>
      match profiles s !! user_uuid with
      | None => Returned (error_response "Profile not found", s)
      | Some p =>
          st ← batch_loop user_uuid payload
                  {| b_processed_ids := []; b_failed_ids := [];
                     b_new_balance := balance p;
                     b_rows := sql_transactions s |};
          if numeric_12_2 (b_new_balance st) then
            Returned
              ({| error := None;
                  processed_ids := b_processed_ids st;
                  failed_ids := b_failed_ids st;
                  new_balance := Some (b_new_balance st) |},
               {| profiles :=
                    <[user_uuid := {| balance := b_new_balance st;
                                      last_synced_at := Some now |}]>
                      (profiles s);
                  sql_transactions := b_rows st |})
          else Raised "numeric field overflow"
      end
  end.

(** What the client receives from [supabase.rpc('process_offline_batch')]
    when the session is [auth_uid] and the server is in state [s]: the
    returned document, or the error of an aborted call. *)
Definition supabase_rpc (now : Z) (auth_uid : option string) (s : Server)
    (payload : list OfflineTransaction) : outcome SyncResponse :=
  match process_offline_batch now auth_uid payload s with
  | Returned (response, _) => Returned response
  | Raised msg => Raised msg
  end.

(** ** The local store ([src/lib/db.ts]) *)

Record ResilientDB := mkDB {
  transactions : list OfflineTransaction;
  wallet : gmap string WalletState
}.

Definition set_transactions (txs : list OfflineTransaction) (db : ResilientDB)
    : ResilientDB :=
  {| transactions := txs; wallet := wallet db |}.

(** [where('user_id').equals(userId)
      .and(tx => tx.sync_status === 'pending').toArray()] *)
Definition getPendingTransactions (userId : string) (db : ResilientDB)
    : list OfflineTransaction :=
  filter (fun tx => user_id tx = userId ∧ sync_status tx = pending)
    (transactions db).

(** [db.wallet.get(userId)] *)
Definition getWalletState (userId : string) (db : ResilientDB)
    : option WalletState :=
  wallet db !! userId.

(** [db.wallet.put(state)]: the record replaces the one stored under its
    [id], if any. *)
Definition updateWalletState (state : WalletState) (db : ResilientDB)
    : ResilientDB :=
  {| transactions := transactions db;
     wallet := <[wallet_id state := state]> (wallet db) |}.

(** [db.transactions.add(tx)] *)
Definition addOfflineTransaction (tx : OfflineTransaction) (db : ResilientDB)
    : ResilientDB :=
  set_transactions (transactions db ++ [tx]) db.

(** The object handed to Dexie's [modify]: the properties it lists are
    overwritten, the others kept. *)
Record Updates := mkUpdates {
  upd_sync_status : option SyncStatus;
  upd_last_sync_attempt : option Z;
  upd_retry_count : option Z
}.

Definition modify (u : Updates) (tx : OfflineTransaction) : OfflineTransaction :=
  {| offline_id := offline_id tx;
     user_id := user_id tx;
     recipient_id := recipient_id tx;
     amount := amount tx;
     tx_type := tx_type tx;
     description := description tx;
     timestamp := timestamp tx;
     sync_status := default (sync_status tx) (upd_sync_status u);
     signature := signature tx;
     retry_count :=
       match upd_retry_count u with
       | Some n => Some n
       | None => retry_count tx
       end;
     last_sync_attempt :=
       match upd_last_sync_attempt u with
       | Some t => Some t
       | None => last_sync_attempt tx
       end |}.

(** [where('offline_id').anyOf(offlineIds).modify({ sync_status: 'synced' })] *)
Definition markTransactionsSynced (offlineIds : list string) (db : ResilientDB)
    : ResilientDB :=
  set_transactions
    ((fun tx =>
        if decide (offline_id tx ∈ offlineIds)
        then modify (mkUpdates (Some synced) None None) tx
        else tx)
       <$> transactions db)
    db.

(** [Date.now() - (daysOld * 24 * 60 * 60 * 1000)] *)
Definition cutoffTime (now daysOld : Z) : Z :=
  now - daysOld * 24 * 60 * 60 * 1000.

(** The default value of the parameter [daysOld]. *)
Definition daysOld_default : Z := 30.

(** The rows the purge selects:
    [where('user_id').equals(userId)
       .and(tx => tx.sync_status === 'synced' && tx.timestamp < cutoffTime)] *)
Definition old_synced (now : Z) (userId : string) (daysOld : option Z)
    (tx : OfflineTransaction) : Prop :=
  user_id tx = userId ∧
  (sync_status tx = synced ∧
   timestamp tx < cutoffTime now (default daysOld_default daysOld)).

#[global] Instance old_synced_dec now userId daysOld tx :
  Decision (old_synced now userId daysOld tx).
Proof. unfold old_synced. apply _. Defined.

(** [clearOldSyncedTransactions(userId, daysOld = 30)] deletes them. *)
Definition clearOldSyncedTransactions (now : Z) (userId : string)
    (daysOld : option Z) (db : ResilientDB) : ResilientDB :=
  set_transactions
    (filter (fun tx => ¬ old_synced now userId daysOld tx) (transactions db))
    db.

(** As [clearOldSyncedTransactions], and resolves to the number of rows
    deleted. *)
Definition cleanupOldTransactions (now : Z) (userId : string)
    (daysOld : option Z) (db : ResilientDB) : nat * ResilientDB :=
  (length (filter (old_synced now userId daysOld) (transactions db)),
   set_transactions
     (filter (fun tx => ¬ old_synced now userId daysOld tx) (transactions db))
     db).

(** [updateTransactionStatus(offlineId, status, incrementRetry = false)] *)
Definition updateTransactionStatus (now : Z) (offlineId : string)
    (status : SyncStatus) (incrementRetry : bool) (db : ResilientDB)
    : ResilientDB :=
  let updates :=
    {| upd_sync_status := Some status;
       upd_last_sync_attempt := Some now;
       upd_retry_count :=
         if incrementRetry then
           match head (filter (fun tx => offline_id tx = offlineId)
                         (transactions db)) with
           | Some tx => Some (default 0 (retry_count tx) + 1)
           | None => None
           end
         else None |} in
  set_transactions
    ((fun tx =>
        if decide (offline_id tx = offlineId) then modify updates tx else tx)
       <$> transactions db)
    db.

(** [where('user_id').equals(userId)
      .and(tx => tx.sync_status === 'conflict').toArray()] *)
Definition getConflictTransactions (userId : string) (db : ResilientDB)
    : list OfflineTransaction :=
  filter (fun tx => user_id tx = userId ∧ sync_status tx = conflict)
    (transactions db).

(** [hoursSinceSync > 24], with [hoursSinceSync] the elapsed milliseconds
    divided by [1000 * 60 * 60]: the elapsed time exceeds 24 hours.  A
    [last_sync_success] that is absent or zero is falsy. *)
Definition checkWalletStaleness (now : Z) (userId : string) (db : ResilientDB)
    : bool :=
  match getWalletState userId db with
  | None => true
  | Some w =>
      match last_sync_success w with
      | None => true
      | Some t =>
          if t =? 0 then true else 24 * (1000 * 60 * 60) <? now - t
      end
  end.

(** [txs.filter(tx => tx.type === k).reduce((sum, tx) => sum + tx.amount, 0)] *)
Definition sum_of_type (k : TransactionType) (txs : list OfflineTransaction) : Z :=
  fold_left (fun sum tx => sum + amount tx)
    (filter (fun tx => tx_type tx = k) txs) 0.

(** [updateWalletPendingAmounts(userId)]: the wallet record, when there is
    one, is written back with the two aggregates and the shadow balance. *)
Definition updateWalletPendingAmounts (userId : string) (db : ResilientDB)
    : ResilientDB :=
  let pendingTxs := getPendingTransactions userId db in
  let pending_debits := sum_of_type debit pendingTxs in
  let pending_credits := sum_of_type credit pendingTxs in
  match getWalletState userId db with
  | Some w =>
      updateWalletState
        {| wallet_id := wallet_id w;
           cached_balance := cached_balance w;
           shadow_balance := cached_balance w - pending_debits + pending_credits;
           last_updated := last_updated w;
           pending_debits := Some pending_debits;
           pending_credits := Some pending_credits;
           last_sync_success := last_sync_success w |}
        db
  | None => db
  end.

(** ** The sync engine ([syncOfflineTransactions]) *)

(** What the cycle reads from its environment: [navigator.onLine] in a
    browser window, [isSupabaseConfigured()], and [Date.now()]. *)
Record Env := mkEnv {
  online : bool;
  supabase_configured : bool;
  date_now : Z
}.

(** The cycle returns [null] or the response, and leaves the store in a new
    state.  [rpc] is the remote call; an error result is thrown and caught
    by the enclosing [try]. *)
Definition syncOfflineTransactions (env : Env)
    (rpc : list OfflineTransaction -> outcome SyncResponse)
    (userId : string) (db : ResilientDB) : option SyncResponse * ResilientDB :=
  if negb (online env) then (None, db)
  else if negb (supabase_configured env) then (None, db)
  else
    let pending := getPendingTransactions userId db in
    if (length pending =? 0)%nat then
      (Some {| error := None; processed_ids := []; failed_ids := [];
               new_balance := Some 0 |}, db)
    else
      match rpc pending with
      | Raised _ => (None, db)
      | Returned response =>
          let db1 :=
            if (0 <? length (processed_ids response))%nat
            then markTransactionsSynced (processed_ids response) db
            else db in
          let db2 :=
            match new_balance response with
            | Some b =>
                updateWalletState
                  {| wallet_id := userId;
                     cached_balance := b;
                     shadow_balance := b;
                     last_updated := date_now env;
                     pending_debits := None;
                     pending_credits := None;
                     last_sync_success := None |}
                  db1
            | None => db1
            end in
          (Some response, db2)
      end.

(** The effect of an accepted entry on the running balance. *)
Definition signed_amount (tx : OfflineTransaction) : Z :=
  match tx_type tx with
  | credit => amount tx
  | debit => - amount tx
  end.

(** ** The batch algorithm as the specification words it

    Section 4.4, step 2, for each transaction in submitted order: (a) if
    its [offline_id] already exists in the authoritative store, it is a
    replay and the running balance is not touched; (b) else if its
    signature is missing or empty, it is rejected; (c) else if it is a
    debit whose amount exceeds the current running balance, it is
    rejected; (d) else the amount is applied to the running balance (added
    for a credit, subtracted for a debit) and the entry is persisted.
    [spec_verdicts] pairs every entry of the batch with its fate; [stored]
    are the ids the authoritative store holds, [running] is the running
    balance. *)

Inductive SpecVerdict := spec_replayed | spec_rejected | spec_accepted.

#[global] Instance SpecVerdict_eq_dec : EqDecision SpecVerdict.
Proof. solve_decision. Defined.

Fixpoint spec_verdicts (stored : list string) (running : Z)
    (batch : list OfflineTransaction)
    : list (OfflineTransaction * SpecVerdict) :=
  match batch with
  | [] => []
  | tx :: rest =>
      if decide (offline_id tx ∈ stored) then
        (tx, spec_replayed) :: spec_verdicts stored running rest
      else if missing_signature (signature tx) then
        (tx, spec_rejected) :: spec_verdicts stored running rest
      else if decide (tx_type tx = debit ∧ running < amount tx) then
        (tx, spec_rejected) :: spec_verdicts stored running rest
      else
        (tx, spec_accepted)
        :: spec_verdicts (stored ++ [offline_id tx])
             (match tx_type tx with
              | credit => running + amount tx
              | debit => running - amount tx
              end)
             rest
  end.

(** The entries with a given fate, in the order of the batch. *)
Definition spec_entries (v : SpecVerdict)
    (verdicts : list (OfflineTransaction * SpecVerdict))
    : list OfflineTransaction :=
  (filter (fun o => o.2 = v) verdicts).*1.

(** The entries counted as processed: the replays and the accepted ones. *)
Definition spec_processed (verdicts : list (OfflineTransaction * SpecVerdict))
    : list OfflineTransaction :=
  (filter (fun o => o.2 ≠ spec_rejected) verdicts).*1.


(** ** Sample data

    A user "u" whose authoritative balance is 50.00, with a debit "a" and a
    credit "b" of 100.00 each, both signed and pending. *)

Definition sample_debit : OfflineTransaction :=
  {| offline_id := "a"; user_id := "u"; recipient_id := None;
     amount := 10000; tx_type := debit; description := Some "lunch";
     timestamp := 1000; sync_status := pending; signature := Some "5f2a";
     retry_count := None; last_sync_attempt := None |}.

Definition sample_credit : OfflineTransaction :=
  {| offline_id := "b"; user_id := "u"; recipient_id := None;
     amount := 10000; tx_type := credit; description := Some "refund";
     timestamp := 2000; sync_status := pending; signature := Some "9c1e";
     retry_count := None; last_sync_attempt := None |}.

Definition sample_server : Server :=
  {| profiles := {["u" := {| balance := 5000; last_synced_at := None |}]};
     sql_transactions := [] |}.

(** A credit "c" of -300.00 and a debit "d" of -100.00, both signed. *)
Definition negative_credit : OfflineTransaction :=
  {| offline_id := "c"; user_id := "u"; recipient_id := None;
     amount := -30000; tx_type := credit; description := None;
     timestamp := 3000; sync_status := pending; signature := Some "77aa";
     retry_count := None; last_sync_attempt := None |}.

Definition negative_debit : OfflineTransaction :=
  {| offline_id := "d"; user_id := "u"; recipient_id := None;
     amount := -10000; tx_type := debit; description := None;
     timestamp := 4000; sync_status := pending; signature := Some "41bd";
     retry_count := None; last_sync_attempt := None |}.

(** The device of user "u": the debit "a" is queued, the wallet shows the
    last confirmed balance, 10000.00, and the balance after the queued debit;
    the last successful sync was at time 4000. *)
Definition sample_wallet : WalletState :=
  {| wallet_id := "u"; cached_balance := 1000000; shadow_balance := 990000;
     last_updated := 4000; pending_debits := Some 10000;
     pending_credits := Some 0; last_sync_success := Some 4000 |}.

Definition sample_db : ResilientDB :=
  {| transactions := [sample_debit]; wallet := {["u" := sample_wallet]} |}.

Definition sample_env : Env :=
  {| online := true; supabase_configured := true; date_now := 5000 |}.

(** The record the sync engine writes after a response with balance [b]. *)
Definition synced_wallet (userId : string) (b now : Z) : WalletState :=
  {| wallet_id := userId; cached_balance := b; shadow_balance := b;
     last_updated := now; pending_debits := None; pending_credits := None;
     last_sync_success := None |}.

(** Six sync cycles in a row of that device against a server on which the
    balance of "u" is 50.00, so that the debit "a" is rejected each time. *)
Definition rejected_six_times : ResilientDB :=
  Nat.iter 6
    (fun db =>
       snd (syncOfflineTransactions sample_env
              (supabase_rpc 1 (Some "u") sample_server) "u" db))
    sample_db.

(** The debit "a" after a failed attempt at time 10, and after it was
    flagged as a conflict at time 10. *)
Definition failed_debit : OfflineTransaction :=
  modify (mkUpdates (Some failed) (Some 10) (Some 1)) sample_debit.

Definition conflict_debit : OfflineTransaction :=
  modify (mkUpdates (Some conflict) (Some 10) None) sample_debit.

Definition failed_db : ResilientDB :=
  {| transactions := [failed_debit]; wallet := {["u" := sample_wallet]} |}.

Definition conflict_db : ResilientDB :=
  {| transactions := [conflict_debit]; wallet := {["u" := sample_wallet]} |}.

(** The aggregates as the specification words them: over the user's
    transactions still in pending, syncing or failed state. *)
Definition spec_unsettled (tx : OfflineTransaction) : Prop :=
  sync_status tx = pending ∨ sync_status tx = syncing ∨ sync_status tx = failed.

#[global] Instance spec_unsettled_dec tx : Decision (spec_unsettled tx).
Proof. unfold spec_unsettled. apply _. Defined.

Definition spec_pending_sum (k : TransactionType) (userId : string)
    (db : ResilientDB) : Z :=
  sum_of_type k
    (filter (fun tx => user_id tx = userId ∧ spec_unsettled tx)
       (transactions db)).

(** The sum of a list of amounts. *)
Definition total (amounts : list Z) : Z := foldr Z.add 0 amounts.

(** ** More of the local store and its consumers *)

(** What the sync drawer shows for one queued entry ([SyncQueueItem]). *)
Record SyncQueueItem := mkItem {
  item_id : string;
  item_type : string;
  item_description : string;
  item_status : SyncStatus;
  item_retry_count : Z;
  max_retries : Z;
  created_at : Z;
  last_attempt : option Z;
  error_message : option string
}.

(** [['pending', 'syncing', 'failed'].includes(tx.sync_status)] *)
Definition queued (tx : OfflineTransaction) : Prop :=
  sync_status tx ∈ [pending; syncing; failed].

#[global] Instance queued_dec tx : Decision (queued tx).
Proof. unfold queued. apply _. Defined.

(** The object [getSyncQueueItems] builds from a row.  A template literal
    prints an absent description as "undefined". *)
Definition queue_item (tx : OfflineTransaction) : SyncQueueItem :=
  {| item_id := offline_id tx;
     item_type := "transaction";
     item_description :=
       (match tx_type tx with debit => "Payment" | credit => "Incoming" end)
       +:+ ": " +:+ default "undefined" (description tx);
     item_status := sync_status tx;
     item_retry_count := default 0 (retry_count tx);
     max_retries := 5;
     created_at := timestamp tx;
     last_attempt := last_sync_attempt tx;
     error_message :=
       if decide (sync_status tx = failed)
       then Some "Network error - will retry" else None |}.

Definition getSyncQueueItems (userId : string) (db : ResilientDB)
    : list SyncQueueItem :=
  queue_item
    <$> filter (fun tx => user_id tx = userId ∧ queued tx) (transactions db).

(** The values [useSyncQueue] derives from the queue once its live query
    has resolved; without a user ([null], or the empty string, which is
    falsy too) the query yields no item. *)
Record UseSyncQueueResult := mkQueueResult {
  queueItems : list SyncQueueItem;
  queueCount : nat;
  hasPending : bool;
  hasFailed : bool;
  hasConflicts : bool
}.

Definition useSyncQueue (userId : option string) (db : ResilientDB)
    : UseSyncQueueResult :=
  let items :=
    match userId with
    | None => []
    | Some u => if decide (u = EmptyString) then [] else getSyncQueueItems u db
    end in
  {| queueItems := items;
     queueCount := length items;
     hasPending :=
       existsb (fun item =>
                  bool_decide (item_status item = pending)
                  || bool_decide (item_status item = syncing)) items;
     hasFailed :=
       existsb (fun item => bool_decide (item_status item = failed)) items;
     hasConflicts :=
       existsb (fun item => bool_decide (item_status item = conflict)) items |}.

(** The two counters of [SyncDrawer]. *)
Definition failedCount (items : list SyncQueueItem) : nat :=
  length (filter (fun item => item_status item = failed) items).

Definition pendingCount (items : list SyncQueueItem) : nat :=
  length (filter (fun item => item_status item = pending
                              ∨ item_status item = syncing) items).

(** [showRetry] of [SyncQueueItemCard]. *)
Definition showRetry (item : SyncQueueItem) : bool :=
  bool_decide (item_status item = failed)
  && (item_retry_count item <? max_retries item).

(** [SyncStatusPill] shows "All synced" under this condition, and the
    number of pending items otherwise. *)
Definition shows_all_synced (queueCount : nat) (hasFailed : bool) : bool :=
  (queueCount =? 0)%nat && negb hasFailed.

(** ** More of the sync engine *)

(** Row level security on [profiles]: a session reads its own profile
    only.  [.single()] fails without a row, and the failure is caught. *)
Definition fetchServerBalance (env : Env) (auth_uid : option string)
    (s : Server) (userId : string) : option Z :=
  if negb (online env) then None
  else if negb (supabase_configured env) then None
  else
    match auth_uid with
    | Some uid =>
        if decide (uid = userId) then balance <$> profiles s !! userId
        else None
    | None => None
    end.

(** ** Account creation ([handle_new_user]) *)

(** The trigger of the initial schema: every new user starts with
    10000.00.  The primary key of [profiles] refuses a second profile.
    (The column [username] is not part of [Profile].) *)
Definition handle_new_user (new_id : string) (s : Server) : outcome Server :=
  match profiles s !! new_id with
  | Some _ => Raised "duplicate key value violates unique constraint"
  | None =>
      Returned {| profiles :=
                    <[new_id := {| balance := 1000000;
                                   last_synced_at := None |}]> (profiles s);
                  sql_transactions := sql_transactions s |}
  end.

(** The trigger as the migration for a custom initial balance replaces it.
    [initial_balance] is the value found in the metadata of the new user,
    cast to [NUMERIC(12,2)]. *)
Definition handle_new_user_custom (new_id : string) (initial_balance : option Z)
    (s : Server) : outcome Server :=
  user_initial_balance ←
    match initial_balance with
    | Some v => if numeric_12_2 v then Returned v
                else Raised "numeric field overflow"
    | None => Returned 1000000
    end;
  let user_initial_balance :=
    if user_initial_balance <? 0 then 0 else user_initial_balance in
  let user_initial_balance :=
    if 1000000000 <? user_initial_balance then 1000000000
    else user_initial_balance in
  match profiles s !! new_id with
  | Some _ => Raised "duplicate key value violates unique constraint"
  | None =>
      Returned {| profiles :=
                    <[new_id := {| balance := user_initial_balance;
                                   last_synced_at := None |}]> (profiles s);
                  sql_transactions := sql_transactions s |}
  end.

(** ** Sequences of store operations *)

(** The exported operations of [db.ts] that write to the store, and the
    sync cycle. *)
Inductive StoreOp :=
  | OpAdd (tx : OfflineTransaction)
  | OpUpdateWallet (state : WalletState)
  | OpMarkSynced (offlineIds : list string)
  | OpUpdateStatus (now : Z) (offlineId : string) (status : SyncStatus)
      (incrementRetry : bool)
  | OpClearOld (now : Z) (userId : string) (daysOld : option Z)
  | OpCleanup (now : Z) (userId : string) (daysOld : option Z)
  | OpRecompute (userId : string)
  | OpSync (env : Env) (rpc : list OfflineTransaction -> outcome SyncResponse)
      (userId : string).

Definition run_op (db : ResilientDB) (op : StoreOp) : ResilientDB :=
  match op with
  | OpAdd tx => addOfflineTransaction tx db
  | OpUpdateWallet state => updateWalletState state db
  | OpMarkSynced ids => markTransactionsSynced ids db
  | OpUpdateStatus now oid status b => updateTransactionStatus now oid status b db
  | OpClearOld now u d => clearOldSyncedTransactions now u d db
  | OpCleanup now u d => snd (cleanupOldTransactions now u d db)
  | OpRecompute u => updateWalletPendingAmounts u db
  | OpSync env rpc u => snd (syncOfflineTransactions env rpc u db)
  end.

Definition run_ops (db : ResilientDB) (ops : list StoreOp) : ResilientDB :=
  foldl run_op db ops.

(** A wallet record is stored under its own [id], the key path of the
    table. *)
Definition wallet_keyed (db : ResilientDB) : Prop :=
  ∀ k w, wallet db !! k = Some w → wallet_id w = k.

(** The one way to record a successful sync for a user: a direct
    [updateWalletState] with a record of that user that carries a
    [last_sync_success]. *)
Definition records_success (u : string) (op : StoreOp) : Prop :=
  match op with
  | OpUpdateWallet state =>
      wallet_id state = u ∧ last_sync_success state ≠ None
  | _ => False
  end.

(** A value that [BIGINT] holds. *)
Definition fits_bigint (v : Z) : Prop := - 2 ^ 63 ≤ v < 2 ^ 63.

(** ** Auxiliary notions for the properties below *)

(** What the loop has reported so far is only carried along. *)
Definition carry (ps : list string) (fs : list (string * string))
    (o : outcome BatchState) : outcome BatchState :=
  match o with
  | Returned st =>
      Returned {| b_processed_ids := ps ++ b_processed_ids st;
                  b_failed_ids := fs ++ b_failed_ids st;
                  b_new_balance := b_new_balance st;
                  b_rows := b_rows st |}
  | Raised msg => Raised msg
  end.

(** The device of user "u" with the credit "b" queued instead. *)
Definition credit_db : ResilientDB :=
  {| transactions := [sample_credit]; wallet := {["u" := sample_wallet]} |}.

(** ** Payment requests between users ([create_payment_request],
    [respond_to_request])

    The two functions work on [profiles], on [transactions], whose rows
    carry by then the column [recipient_id], on [payment_requests] and on
    the e-mail addresses of [auth.users]. *)

Inductive RequestStatus := request_pending | request_approved | request_rejected.

#[global] Instance RequestStatus_eq_dec : EqDecision RequestStatus.
Proof. solve_decision. Defined.

Record PaymentRequest := mkRequest {
  requester_id : string;
  payer_id : string;
  request_amount : Z;
  request_description : string;
  request_status : RequestStatus;
  responded_at : option Z
}.

Record P2PServer := mkP2P {
  p2p_profiles : gmap string Profile;
  p2p_transactions : list (LedgerRow * option string);
  payment_requests : gmap string PaymentRequest;
  user_emails : gmap string string
}.

(** The document a function returns: an error, or a success with the
    request id ([create_payment_request]) or with the new status
    ([respond_to_request]). *)
Inductive RequestReply :=
  | ReplyError (msg : string)
  | ReplyCreated (request_id : string)
  | ReplyStatus (status : RequestStatus).

(** [create_payment_request(payer_email, request_amount,
    request_description)].  [new_request_id] is the id drawn by
    [uuid_generate_v4()].  The table checks [amount > 0]. *)
Definition create_payment_request (auth_uid : option string)
    (new_request_id : string) (payer_email : string) (amount : Z)
    (description : string) (s : P2PServer) : outcome (RequestReply * P2PServer) :=
  match auth_uid with
  | None => Returned (ReplyError "Not authenticated", s)
  | Some requester_uuid =>
      match user_emails s !! payer_email with
      | None => Returned (ReplyError "User not found", s)
      | Some payer_uuid =>
          if decide (payer_uuid = requester_uuid) then
            Returned (ReplyError "Cannot request money from yourself", s)
          else if negb (numeric_12_2 amount) then
            Raised "numeric field overflow"
          else if negb (0 <? amount) then
            Raised "violates check constraint"
          else if bool_decide (is_Some (payment_requests s !! new_request_id))
          then Raised "duplicate key value violates unique constraint"
          else if negb (bool_decide (is_Some (p2p_profiles s !! requester_uuid))
                        && bool_decide (is_Some (p2p_profiles s !! payer_uuid)))
          then Raised "violates foreign key constraint"
          else
            Returned
              (ReplyCreated new_request_id,
               {| p2p_profiles := p2p_profiles s;
                  p2p_transactions := p2p_transactions s;
                  payment_requests :=
                    <[new_request_id :=
                        {| requester_id := requester_uuid;
                           payer_id := payer_uuid;
                           request_amount := amount;
                           request_description := description;
                           request_status := request_pending;
                           responded_at := None |}]>
                      (payment_requests s);
                  user_emails := user_emails s |})
      end
  end.

(** [UPDATE profiles SET balance = balance + delta, last_synced_at = NOW()
    WHERE id = uid]: no row, no change; a balance out of range raises. *)
Definition adjust_balance (now : Z) (uid : string) (delta : Z)
    (profs : gmap string Profile) : outcome (gmap string Profile) :=
  match profs !! uid with
  | None => Returned profs
  | Some p =>
      if numeric_12_2 (balance p + delta) then
        Returned (<[uid := {| balance := balance p + delta;
                              last_synced_at := Some now |}]> profs)
      else Raised "numeric field overflow"
  end.

(** [INSERT INTO transactions (..., recipient_id)]: the [offline_id] must
    be new and the owner must have a profile. *)
Definition insert_request_row (profs : gmap string Profile)
    (row : LedgerRow) (recipient : string)
    (rows : list (LedgerRow * option string))
    : outcome (list (LedgerRow * option string)) :=
  if bool_decide (row_offline_id row ∈ (row_offline_id ∘ fst) <$> rows) then
    Raised "duplicate key value violates unique constraint"
  else if negb (bool_decide (is_Some (profs !! row_user_id row))) then
    Raised "violates foreign key constraint"
  else Returned (rows ++ [(row, Some recipient)]).

Definition set_request_status (now : Z) (request_id : string)
    (status : RequestStatus) (r : PaymentRequest) (s : P2PServer)
    (profs : gmap string Profile) (rows : list (LedgerRow * option string))
    : P2PServer :=
  {| p2p_profiles := profs;
     p2p_transactions := rows;
     payment_requests :=
       <[request_id := {| requester_id := requester_id r;
                          payer_id := payer_id r;
                          request_amount := request_amount r;
                          request_description := request_description r;
                          request_status := status;
                          responded_at := Some now |}]>
         (payment_requests s);
     user_emails := user_emails s |}.

(** [respond_to_request(request_id, approve)] *)
Definition respond_to_request (now : Z) (auth_uid : option string)
    (request_id : string) (approve : bool) (s : P2PServer)
    : outcome (RequestReply * P2PServer) :=
  match auth_uid with
  | None => Returned (ReplyError "Not authenticated", s)
  | Some payer_uuid =>
      match payment_requests s !! request_id with
      | None => Returned (ReplyError "Request not found", s)
      | Some the_request =>
          if decide (payer_id the_request ≠ payer_uuid) then
            Returned (ReplyError "Not authorized", s)
          else if decide (request_status the_request ≠ request_pending) then
            Returned (ReplyError "Request already processed", s)
          else if approve then
            let requester_uuid := requester_id the_request in
            let amount := request_amount the_request in
            let desc := request_description the_request in
            if match p2p_profiles s !! payer_uuid with
               | Some p => balance p <? amount
               | None => false
               end
            then Returned (ReplyError "Insufficient balance", s)
            else
              profs1 ← adjust_balance now payer_uuid (- amount) (p2p_profiles s);
              profs2 ← adjust_balance now requester_uuid amount profs1;
              rows1 ← insert_request_row profs2
                        {| row_user_id := payer_uuid;
                           row_amount := amount;
                           row_type := debit;
                           row_description := "Paid request: " +:+ desc;
                           row_status := synced;
                           row_offline_id := "req-" +:+ request_id +:+ "-pay";
                           row_signature := "request-approved" |}
                        requester_uuid (p2p_transactions s);
              rows2 ← insert_request_row profs2
                        {| row_user_id := requester_uuid;
                           row_amount := amount;
                           row_type := credit;
                           row_description := "Received: " +:+ desc;
                           row_status := synced;
                           row_offline_id := "req-" +:+ request_id +:+ "-rcv";
                           row_signature := "request-approved" |}
                        payer_uuid rows1;
              Returned (ReplyStatus request_approved,
                        set_request_status now request_id request_approved
                          the_request s profs2 rows2)
          else
            Returned (ReplyStatus request_rejected,
                      set_request_status now request_id request_rejected
                        the_request s (p2p_profiles s) (p2p_transactions s))
      end
  end.

(** Two users: "u" holds 50.00 and has asked "v", who holds 200.00, for
    100.00. *)
Definition sample_p2p : P2PServer :=
  {| p2p_profiles :=
       {["u" := {| balance := 5000; last_synced_at := None |};
         "v" := {| balance := 20000; last_synced_at := None |}]};
     p2p_transactions := [];
     payment_requests :=
       {["r1" := {| requester_id := "u"; payer_id := "v";
                    request_amount := 10000; request_description := "rent";
                    request_status := request_pending;
                    responded_at := None |}]};
     user_emails := {["u@example.org" := "u"; "v@example.org" := "v"]} |}.

(** The state a call leaves, or the given one when the call raises. *)
Definition state_after {A S} (o : outcome (A * S)) (s : S) : S :=
  match o with
  | Returned (_, s') => s'
  | Raised _ => s
  end.

(** A credit "e" of 100.00 that carries an empty signature. *)
Definition unsigned_credit : OfflineTransaction :=
  {| offline_id := "e"; user_id := "u"; recipient_id := None;
     amount := 10000; tx_type := credit; description := None;
     timestamp := 5000; sync_status := pending;
     signature := Some EmptyString;
     retry_count := None; last_sync_attempt := None |}.
(** * Properties *)

(** ** The reconciliation loop *)

Lemma fold_left_amount_acc (l : list OfflineTransaction) (a : Z) :
  fold_left (fun sum tx => sum + amount tx) l a
  = a + fold_left (fun sum tx => sum + amount tx) l 0.
Proof.
  revert a. induction l as [|tx l IH]; intros a; simpl.
  - lia.
  - rewrite (IH (a + amount tx)), (IH (0 + amount tx)). lia.
Qed.

Lemma sum_of_type_nil k : sum_of_type k [] = 0.
Proof. reflexivity. Qed.

Lemma sum_of_type_cons k tx l :
  sum_of_type k (tx :: l)
  = (if decide (tx_type tx = k) then amount tx else 0) + sum_of_type k l.
Proof.
  unfold sum_of_type. rewrite filter_cons.
  destruct (decide (tx_type tx = k)); simpl; [|lia].
  rewrite fold_left_amount_acc. lia.
Qed.

Lemma signed_amount_sums tx l :
  sum_of_type credit (tx :: l) - sum_of_type debit (tx :: l)
  = signed_amount tx + (sum_of_type credit l - sum_of_type debit l).
Proof.
  rewrite !sum_of_type_cons. unfold signed_amount.
  destruct (tx_type tx); repeat case_decide; try congruence; lia.
Qed.

Lemma existing_count_app oid rows rows' :
  existing_count oid (rows ++ rows')
  = (existing_count oid rows + existing_count oid rows')%nat.
Proof. unfold existing_count. by rewrite filter_app, length_app. Qed.

Lemma existing_count_pos oid rows :
  (0 < existing_count oid rows)%nat ↔ oid ∈ map row_offline_id rows.
Proof.
  unfold existing_count. induction rows as [|r rows IH]; simpl.
  - split; [lia | intros H; inversion H].
  - rewrite filter_cons, elem_of_cons.
    destruct (decide (row_offline_id r = oid)) as [E|E]; simpl.
    + split; [auto | lia].
    + rewrite IH. split; [by right | by intros [?|?]; [congruence|]].
Qed.

Lemma existing_count_zero oid rows :
  existing_count oid rows = 0%nat ↔ oid ∉ map row_offline_id rows.
Proof. rewrite <- existing_count_pos. lia. Qed.

(** The three ways an iteration can end without raising. *)
Lemma batch_step_cases uid st tx st' :
  batch_step uid st tx = Returned st' →
  ((0 < existing_count (offline_id tx) (b_rows st))%nat ∧
   st' = report_processed st (offline_id tx))
  ∨ ((existing_count (offline_id tx) (b_rows st) = 0)%nat ∧
     ((missing_signature (signature tx) = true ∧
       st' = report_failed st (offline_id tx) "Missing signature")
      ∨ (missing_signature (signature tx) = false ∧
         tx_type tx = debit ∧ b_new_balance st < amount tx ∧
         st' = report_failed st (offline_id tx) "Insufficient balance")))
  ∨ ((existing_count (offline_id tx) (b_rows st) = 0)%nat ∧
     missing_signature (signature tx) = false ∧
     numeric_12_2 (amount tx) = true ∧
     (tx_type tx = debit → amount tx ≤ b_new_balance st) ∧
     st' = {| b_processed_ids := b_processed_ids st ++ [offline_id tx];
              b_failed_ids := b_failed_ids st;
              b_new_balance := b_new_balance st + signed_amount tx;
              b_rows := b_rows st ++ [ledger_row uid tx] |}).
Proof.
  unfold batch_step, insert_transaction, signed_amount.
  destruct (Nat.ltb_spec 0 (existing_count (offline_id tx) (b_rows st)))
    as [Hdup|Hfresh].
  { intros [= <-]. left. done. }
  assert (existing_count (offline_id tx) (b_rows st) = 0%nat) as H0 by lia.
  destruct (missing_signature (signature tx)) eqn:Hsig.
  { intros [= <-]. right; left. split; [done|]. left. done. }
  destruct (tx_type tx) eqn:Hty.
  - destruct (numeric_12_2 (amount tx)) eqn:Hfit; [|done].
    intros [= <-]. right; right. repeat split; done.
  - destruct (Z.ltb_spec (b_new_balance st) (amount tx)) as [Hlt|Hge].
    + intros [= <-]. right; left. split; [done|]. right. done.
    + destruct (numeric_12_2 (amount tx)) eqn:Hfit; [|done].
      intros [= <-]. right; right. repeat split; try done.
Qed.

(** The loop only ever appends to its two lists and to the ledger. *)
Lemma batch_loop_grows uid payload st st' :
  batch_loop uid payload st = Returned st' →
  ∃ ps fs rows,
    b_processed_ids st' = b_processed_ids st ++ ps ∧
    b_failed_ids st' = b_failed_ids st ++ fs ∧
    b_rows st' = b_rows st ++ rows.
Proof.
  revert st. induction payload as [|tx rest IH]; intros st; simpl.
  - intros [= <-]. exists [], [], []. by rewrite !app_nil_r.
  - destruct (batch_step uid st tx) as [st1|msg] eqn:Hstep; [|done].
    simpl. intros Hloop.
    destruct (IH _ Hloop) as (ps & fs & rows & Hp & Hf & Hr).
    apply batch_step_cases in Hstep
      as [[_ ->]|[[_ [[_ ->]|(_ & _ & _ & ->)]]|(_ & _ & _ & _ & ->)]];
      simpl in *.
    + eexists _, fs, rows. by rewrite Hp, <- app_assoc.
    + eexists ps, _, rows. by rewrite Hf, <- app_assoc.
    + eexists ps, _, rows. by rewrite Hf, <- app_assoc.
    + eexists _, fs, _. by rewrite Hp, Hr, <- !app_assoc.
Qed.

(** Invariant of the loop: the ledger grows by the rows of a subsequence of
    the payload, and the running balance moves by exactly their amounts. *)
Lemma batch_loop_conservation uid payload st st' :
  batch_loop uid payload st = Returned st' →
  ∃ accepted,
    sublist accepted payload ∧
    b_rows st' = b_rows st ++ map (ledger_row uid) accepted ∧
    b_new_balance st'
    = b_new_balance st
      + sum_of_type credit accepted - sum_of_type debit accepted ∧
    (length (b_processed_ids st') + length (b_failed_ids st')
     = length (b_processed_ids st) + length (b_failed_ids st)
       + length payload)%nat ∧
    (length (b_failed_ids st') + length accepted
     ≤ length (b_failed_ids st) + length payload)%nat ∧
    Forall (fun tx =>
              offline_id tx ∈ b_processed_ids st' ∧
              (offline_id tx ∉ map row_offline_id (b_rows st)) ∧
              missing_signature (signature tx) = false) accepted.
Proof.
  revert st. induction payload as [|tx rest IH]; intros st; simpl.
  - intros [= <-]. exists []. rewrite app_nil_r, !sum_of_type_nil.
    repeat split; (done || lia).
  - destruct (batch_step uid st tx) as [st1|msg] eqn:Hstep; [|done].
    simpl. intros Hloop.
    destruct (IH _ Hloop) as (acc & Hsub & Hrows & Hbal & Hlen & Hle & Hacc).
    destruct (batch_loop_grows _ _ _ _ Hloop) as (ps & _ & _ & Hps & _ & _).
    apply batch_step_cases in Hstep
      as [[_ ->]|[[_ [[_ ->]|(_ & _ & _ & ->)]]|(Hfresh & Hsig & _ & _ & ->)]];
      simpl in *.
    + exists acc. split_and!; try done.
      * by apply sublist_cons.
      * rewrite length_app in Hlen. simpl in Hlen. lia.
      * lia.
    + exists acc. split_and!; try done.
      * by apply sublist_cons.
      * rewrite length_app in Hlen. simpl in Hlen. lia.
      * rewrite length_app in Hle. simpl in Hle. lia.
    + exists acc. split_and!; try done.
      * by apply sublist_cons.
      * rewrite length_app in Hlen. simpl in Hlen. lia.
      * rewrite length_app in Hle. simpl in Hle. lia.
    + exists (tx :: acc). split_and!.
      * by apply sublist_skip.
      * rewrite Hrows, <- app_assoc. done.
      * pose proof (signed_amount_sums tx acc). lia.
      * rewrite length_app in Hlen. simpl in Hlen. lia.
      * simpl. lia.
      * constructor.
        -- split_and!; [|by apply existing_count_zero|done].
           rewrite Hps, !elem_of_app. left; right.
           by apply list_elem_of_singleton.
        -- eapply Forall_impl; [exact Hacc|]. simpl.
           intros t (? & Hnot & ?). split_and!; try done.
           intros Hin. apply Hnot. rewrite map_app, elem_of_app. by left.
Qed.

(** The converse readings: which branch an iteration takes. *)
Lemma batch_step_duplicate uid st tx :
  offline_id tx ∈ map row_offline_id (b_rows st) →
  batch_step uid st tx = Returned (report_processed st (offline_id tx)).
Proof.
  intros H%existing_count_pos. unfold batch_step.
  by destruct (Nat.ltb_spec 0 (existing_count (offline_id tx) (b_rows st)));
    [|lia].
Qed.

Lemma batch_step_missing_signature uid st tx :
  offline_id tx ∉ map row_offline_id (b_rows st) →
  missing_signature (signature tx) = true →
  batch_step uid st tx
  = Returned (report_failed st (offline_id tx) "Missing signature").
Proof.
  intros H%existing_count_zero Hsig. unfold batch_step. by rewrite H, Hsig.
Qed.

Lemma batch_step_insufficient uid st tx :
  offline_id tx ∉ map row_offline_id (b_rows st) →
  missing_signature (signature tx) = false →
  tx_type tx = debit →
  b_new_balance st < amount tx →
  batch_step uid st tx
  = Returned (report_failed st (offline_id tx) "Insufficient balance").
Proof.
  intros H%existing_count_zero Hsig Hty Hlt. unfold batch_step.
  rewrite H, Hsig, Hty. simpl.
  by destruct (Z.ltb_spec (b_new_balance st) (amount tx)); [|lia].
Qed.

Lemma batch_step_accept uid st tx :
  offline_id tx ∉ map row_offline_id (b_rows st) →
  missing_signature (signature tx) = false →
  numeric_12_2 (amount tx) = true →
  (tx_type tx = debit → amount tx ≤ b_new_balance st) →
  batch_step uid st tx
  = Returned {| b_processed_ids := b_processed_ids st ++ [offline_id tx];
                b_failed_ids := b_failed_ids st;
                b_new_balance := b_new_balance st + signed_amount tx;
                b_rows := b_rows st ++ [ledger_row uid tx] |}.
Proof.
  intros H%existing_count_zero Hsig Hfit Hle.
  unfold batch_step, insert_transaction, signed_amount.
  rewrite H, Hsig, Hfit. simpl. destruct (tx_type tx); [done|].
  destruct (Z.ltb_spec (b_new_balance st) (amount tx)); [|done].
  specialize (Hle eq_refl). lia.
Qed.

(** The loop itself never fails when every amount fits its column. *)
Lemma batch_loop_returns uid payload st :
  Forall (fun tx => numeric_12_2 (amount tx) = true) payload →
  ∃ st', batch_loop uid payload st = Returned st'.
Proof.
  intros Hfit. revert st.
  induction Hfit as [|tx rest Htx _ IH]; intros st; simpl; [by eexists|].
  assert (∃ st1, batch_step uid st tx = Returned st1) as [st1 ->].
  { unfold batch_step, insert_transaction. rewrite Htx.
    repeat (case_match; try by eexists). }
  simpl. apply IH.
Qed.

(** The running balance never moves by more than the amounts seen. *)
Lemma batch_loop_balance_bound uid payload st st' :
  batch_loop uid payload st = Returned st' →
  Z.abs (b_new_balance st')
  ≤ Z.abs (b_new_balance st) + total (Z.abs ∘ amount <$> payload).
Proof.
  revert st. induction payload as [|tx rest IH]; intros st Hrun; simpl in Hrun.
  - injection Hrun as <-. simpl. lia.
  - destruct (batch_step uid st tx) as [st1|msg] eqn:Hstep; [|done].
    simpl in Hrun. apply IH in Hrun as Hloop.
    change (total (Z.abs ∘ amount <$> tx :: rest))
      with (Z.abs (amount tx) + total (Z.abs ∘ amount <$> rest)).
    pose proof (Z.abs_nonneg (amount tx)).
    apply batch_step_cases in Hstep
      as [[_ ->]|[[_ [[_ ->]|(_ & _ & _ & ->)]]|(_ & _ & _ & _ & ->)]];
      simpl in Hloop; try lia.
    unfold signed_amount in Hloop. destruct (tx_type tx); lia.
Qed.

Lemma total_abs_nonneg (txs : list OfflineTransaction) :
  0 ≤ total (Z.abs ∘ amount <$> txs).
Proof.
  induction txs as [|tx txs IH]; [done|].
  change (total (Z.abs ∘ amount <$> tx :: txs))
    with (Z.abs (amount tx) + total (Z.abs ∘ amount <$> txs)).
  lia.
Qed.

(** The function returns, rather than raises, whenever the starting balance
    and the amounts of the batch together stay within [NUMERIC(12,2)]. *)
Lemma process_offline_batch_returns now uid payload s p :
  profiles s !! uid = Some p →
  Z.abs (balance p) + total (Z.abs ∘ amount <$> payload) < 10 ^ 12 →
  ∃ response s',
    process_offline_batch now (Some uid) payload s = Returned (response, s').
Proof.
  intros Hp Hbound. unfold process_offline_batch. rewrite Hp.
  destruct (batch_loop_returns uid payload
              {| b_processed_ids := []; b_failed_ids := [];
                 b_new_balance := balance p;
                 b_rows := sql_transactions s |}) as [st Hloop].
  { clear Hp. revert Hbound. generalize (Z.abs (balance p)) (Z.abs_nonneg (balance p)).
    induction payload as [|tx rest IH]; intros b Hb Hbound; [done|].
    change (total (Z.abs ∘ amount <$> tx :: rest))
      with (Z.abs (amount tx) + total (Z.abs ∘ amount <$> rest)) in Hbound.
    pose proof (total_abs_nonneg rest). pose proof (Z.abs_nonneg (amount tx)).
    constructor.
    - unfold numeric_12_2. apply Z.ltb_lt. lia.
    - apply (IH b); [done|lia]. }
  rewrite Hloop. simpl.
  pose proof (batch_loop_balance_bound _ _ _ _ Hloop) as Hb. simpl in Hb.
  assert (numeric_12_2 (b_new_balance st) = true) as ->
    by (unfold numeric_12_2; apply Z.ltb_lt; lia).
  by eexists _, _.
Qed.

Lemma spec_entries_cons v tx w verdicts :
  spec_entries v ((tx, w) :: verdicts)
  = if decide (w = v) then tx :: spec_entries v verdicts
    else spec_entries v verdicts.
Proof. unfold spec_entries. rewrite filter_cons. simpl. by case_decide. Qed.

Lemma spec_processed_cons tx w verdicts :
  spec_processed ((tx, w) :: verdicts)
  = if decide (w = spec_rejected) then spec_processed verdicts
    else tx :: spec_processed verdicts.
Proof.
  unfold spec_processed. rewrite filter_cons. simpl.
  destruct (decide (w = spec_rejected)); simpl.
  - by rewrite decide_False by (intros ?; done).
  - by rewrite decide_True.
Qed.

(** The loop does, entry by entry, what the specification's algorithm
    says. *)
Lemma batch_loop_verdicts uid payload st st' :
  batch_loop uid payload st = Returned st' →
  b_processed_ids st'
  = b_processed_ids st
    ++ (offline_id
          <$> spec_processed
                (spec_verdicts (row_offline_id <$> b_rows st)
                   (b_new_balance st) payload)) ∧
  (b_failed_ids st').*1
  = (b_failed_ids st).*1
    ++ (offline_id
          <$> spec_entries spec_rejected
                (spec_verdicts (row_offline_id <$> b_rows st)
                   (b_new_balance st) payload)) ∧
  b_rows st'
  = b_rows st
    ++ (ledger_row uid
          <$> spec_entries spec_accepted
                (spec_verdicts (row_offline_id <$> b_rows st)
                   (b_new_balance st) payload)) ∧
  b_new_balance st'
  = b_new_balance st
    + sum_of_type credit
        (spec_entries spec_accepted
           (spec_verdicts (row_offline_id <$> b_rows st)
              (b_new_balance st) payload))
    - sum_of_type debit
        (spec_entries spec_accepted
           (spec_verdicts (row_offline_id <$> b_rows st)
              (b_new_balance st) payload)).
Proof.
  revert st. induction payload as [|tx rest IH]; intros st.
  - simpl. intros [= <-]. unfold spec_processed, spec_entries. simpl.
    rewrite !app_nil_r, !sum_of_type_nil. split_and!; (done || lia).
  - cbn [batch_loop spec_verdicts].
    destruct (batch_step uid st tx) as [st1|msg] eqn:Hstep; [|done].
    intros Hloop. cbn in Hloop.
    destruct (IH _ Hloop) as (Hp & Hf & Hr & Hb). clear IH.
    apply batch_step_cases in Hstep
      as [[Hdup ->]|[[Hfresh [[Hs ->]|(Hs & Hd & Hlt & ->)]]
                    |(Hfresh & Hs & _ & Hle & ->)]];
      cbn [report_processed report_failed b_processed_ids b_failed_ids
           b_new_balance b_rows] in Hp, Hf, Hr, Hb.
    + apply existing_count_pos in Hdup.
      rewrite decide_True by done.
      rewrite spec_processed_cons, !spec_entries_cons. simpl.
      rewrite Hp, Hf, Hr, Hb, <- app_assoc. done.
    + apply existing_count_zero in Hfresh.
      rewrite decide_False, Hs by done.
      rewrite spec_processed_cons, !spec_entries_cons. simpl.
      rewrite Hp, Hf, Hr, Hb, fmap_app, <- app_assoc. done.
    + apply existing_count_zero in Hfresh.
      rewrite decide_False, Hs, decide_True by done.
      rewrite spec_processed_cons, !spec_entries_cons. simpl.
      rewrite Hp, Hf, Hr, Hb, fmap_app, <- app_assoc. done.
    + apply existing_count_zero in Hfresh.
      rewrite decide_False by done. rewrite Hs.
      rewrite decide_False
        by (intros [Hd ?]; specialize (Hle Hd); lia).
      assert (b_new_balance st + signed_amount tx
              = match tx_type tx with
                | credit => b_new_balance st + amount tx
                | debit => b_new_balance st - amount tx
                end) as Hrun
        by (unfold signed_amount; destruct (tx_type tx); lia).
      rewrite fmap_app in Hp, Hf, Hr, Hb.
      change (row_offline_id <$> [ledger_row uid tx]) with [offline_id tx]
        in Hp, Hf, Hr, Hb.
      rewrite Hrun in Hp, Hf, Hr, Hb.
      rewrite spec_processed_cons, !spec_entries_cons. simpl.
      rewrite Hp, Hf, Hr, Hb, <- !app_assoc. split_and!; try done.
      rewrite <- Hrun.
      match goal with
      | |- context [sum_of_type credit (tx :: ?l)] =>
          pose proof (signed_amount_sums tx l)
      end.
      lia.
Qed.

(** What the specification's algorithm accepts it found new and signed,
    and its three kinds of entries share out the batch. *)
Lemma spec_verdicts_facts stored running batch :
  sublist (spec_entries spec_accepted (spec_verdicts stored running batch))
    batch ∧
  (length (spec_entries spec_rejected (spec_verdicts stored running batch))
   + length (spec_entries spec_accepted (spec_verdicts stored running batch))
   ≤ length batch)%nat ∧
  sublist (spec_entries spec_accepted (spec_verdicts stored running batch))
    (spec_processed (spec_verdicts stored running batch)) ∧
  Forall (fun tx => (offline_id tx ∉ stored)
                    ∧ missing_signature (signature tx) = false)
    (spec_entries spec_accepted (spec_verdicts stored running batch)).
Proof.
  revert stored running. induction batch as [|tx rest IH];
    intros stored running.
  - unfold spec_entries, spec_processed. simpl. split_and!; (done || lia).
  - cbn [spec_verdicts].
    destruct (decide (offline_id tx ∈ stored)) as [Hin|Hout].
    { destruct (IH stored running) as (H1 & H2 & H3 & H4).
      rewrite spec_processed_cons, !spec_entries_cons. simpl.
      split_and!; try done.
      - by apply sublist_cons.
      - lia.
      - by apply sublist_cons. }
    destruct (missing_signature (signature tx)) eqn:Hs.
    { destruct (IH stored running) as (H1 & H2 & H3 & H4).
      rewrite spec_processed_cons, !spec_entries_cons. simpl.
      split_and!; try done.
      - by apply sublist_cons.
      - lia. }
    destruct (decide (tx_type tx = debit ∧ running < amount tx)).
    { destruct (IH stored running) as (H1 & H2 & H3 & H4).
      rewrite spec_processed_cons, !spec_entries_cons. simpl.
      split_and!; try done.
      - by apply sublist_cons.
      - lia. }
    destruct (IH (stored ++ [offline_id tx])
                (match tx_type tx with
                 | credit => running + amount tx
                 | debit => running - amount tx
                 end)) as (H1 & H2 & H3 & H4).
    rewrite spec_processed_cons, !spec_entries_cons. simpl. split_and!.
    + by apply sublist_skip.
    + lia.
    + by apply sublist_skip.
    + constructor; [done|].
      eapply Forall_impl; [exact H4|]. simpl. intros t [Hn ?].
      split; [|done]. intros Hin. apply Hn, elem_of_app. by left.
Qed.

(** C1. Balance conservation: when [process_offline_batch] returns for a
    user with a profile, the returned [new_balance] is the starting balance
    plus the amounts of the accepted credits minus the amounts of the
    accepted debits, where the accepted entries are exactly those the
    algorithm of the specification accepts: new to the store, signed, and
    for a debit covered by the running balance.  Rejected entries and
    replayed duplicates contribute nothing: [processed_ids] lists the
    replayed and the accepted entries, [failed_ids] the rejected ones, and
    the ledger grows by the rows of the accepted entries and by nothing
    else.  (Amounts have two fractional digits, as in the data model.) *)
Theorem balance_conservation now uid payload s p response s' :
  profiles s !! uid = Some p →
  process_offline_batch now (Some uid) payload s = Returned (response, s') →
  let verdicts :=
    spec_verdicts (row_offline_id <$> sql_transactions s) (balance p) payload in
  let accepted := spec_entries spec_accepted verdicts in
  new_balance response
  = Some (balance p + sum_of_type credit accepted
          - sum_of_type debit accepted) ∧
  processed_ids response = offline_id <$> spec_processed verdicts ∧
  (failed_ids response).*1
  = offline_id <$> spec_entries spec_rejected verdicts ∧
  sql_transactions s' = sql_transactions s ++ map (ledger_row uid) accepted ∧
  sublist accepted payload ∧
  (length (processed_ids response) + length (failed_ids response)
   = length payload)%nat ∧
  (length (failed_ids response) + length accepted ≤ length payload)%nat ∧
  Forall (fun tx =>
            offline_id tx ∈ processed_ids response ∧
            (offline_id tx ∉ map row_offline_id (sql_transactions s)) ∧
            missing_signature (signature tx) = false) accepted.
Proof.
  intros Hp. unfold process_offline_batch. rewrite Hp.
  destruct (batch_loop _ _ _) as [st|msg] eqn:Hloop; [|done]. simpl.
  destruct (numeric_12_2 (b_new_balance st)); [|done].
  intros [= <- <-]. simpl.
  destruct (batch_loop_verdicts _ _ _ _ Hloop) as (Hps & Hfs & Hrows & Hbal).
  destruct (batch_loop_conservation _ _ _ _ Hloop)
    as (_ & _ & _ & _ & Hlen & _).
  simpl in *.
  destruct (spec_verdicts_facts (row_offline_id <$> sql_transactions s)
              (balance p) payload) as (Hsub & Hcount & Hsubp & Hnew).
  split_and!; try done.
  - by rewrite Hbal.
  - rewrite <- (length_fmap fst (b_failed_ids st)), Hfs, length_fmap. done.
  - apply Forall_forall. intros tx Hin. rewrite Hps.
    pose proof (proj1 (Forall_forall _ _) Hnew tx Hin) as [Hn Hsig].
    split_and!; try done.
    apply list_elem_of_fmap_2.
    by apply (elem_of_sublist _ _ _ Hin Hsubp).
Qed.

Lemma balance_conservation_witness :
  new_balance
    {| error := None; processed_ids := ["b"];
       failed_ids := [("a", "Insufficient balance")];
       new_balance := Some 15000 |}
  = Some (5000 + sum_of_type credit [sample_credit]
          - sum_of_type debit [sample_credit]) ∧
  [mkRow "u" 10000 credit "refund" synced "b" "9c1e"]
  = [] ++ map (ledger_row "u") [sample_credit].
Proof.
  destruct (balance_conservation 1 "u"
    [sample_debit; sample_credit] sample_server (mkProfile 5000 None)
    {| error := None; processed_ids := ["b"];
       failed_ids := [("a", "Insufficient balance")];
       new_balance := Some 15000 |}
    (mkServer {["u" := mkProfile 15000 (Some 1)]}
       [mkRow "u" 10000 credit "refund" synced "b" "9c1e"]))
    as (Hbal & _ & _ & Hrows & _).
  - reflexivity.
  - vm_compute. reflexivity.
  - split; [exact Hbal | exact Hrows].
Defined.

(** C2. Order sensitivity: the batch is processed in submitted order
    against a running balance.  With a starting balance of 50.00, for a
    debit [d] and a credit [c] of 100.00 each (new, distinct ids, signed),
    [[d; c]] rejects the debit with reason "Insufficient balance", accepts
    the credit and yields 150.00, while [[c; d]] accepts both and yields
    50.00.  (In hundredths: 5000, 10000 and 15000.) *)
Theorem order_sensitivity now uid s p (d c : OfflineTransaction) :
  profiles s !! uid = Some p →
  balance p = 5000 →
  tx_type d = debit → amount d = 10000 →
  tx_type c = credit → amount c = 10000 →
  missing_signature (signature d) = false →
  missing_signature (signature c) = false →
  offline_id d ≠ offline_id c →
  offline_id d ∉ map row_offline_id (sql_transactions s) →
  offline_id c ∉ map row_offline_id (sql_transactions s) →
  (∃ s1,
     process_offline_batch now (Some uid) [d; c] s
     = Returned ({| error := None;
                    processed_ids := [offline_id c];
                    failed_ids := [(offline_id d, "Insufficient balance")];
                    new_balance := Some 15000 |}, s1) ∧
     sql_transactions s1 = sql_transactions s ++ [ledger_row uid c]) ∧
  (∃ s2,
     process_offline_batch now (Some uid) [c; d] s
     = Returned ({| error := None;
                    processed_ids := [offline_id c; offline_id d];
                    failed_ids := [];
                    new_balance := Some 5000 |}, s2) ∧
     sql_transactions s2
     = sql_transactions s ++ [ledger_row uid c; ledger_row uid d]).
Proof.
  intros Hp Hbal Hd Had Hc Hac Hsd Hsc Hne Hfd Hfc.
  unfold process_offline_batch. rewrite Hp, Hbal. split.
  - simpl. rewrite batch_step_insufficient; simpl; try done; [|lia].
    rewrite batch_step_accept; simpl; try done;
      [|by rewrite Hac|congruence].
    unfold signed_amount. rewrite Hc, Hac. simpl. eexists. split; done.
  - simpl. rewrite batch_step_accept; simpl; try done;
      [|by rewrite Hac|congruence].
    unfold signed_amount at 1. rewrite Hc, Hac. simpl.
    rewrite batch_step_accept; simpl; try done.
    + unfold signed_amount. rewrite Hd, Had. simpl.
      eexists. split; [done|]. simpl. by rewrite <- app_assoc.
    + rewrite map_app. simpl. rewrite elem_of_app, list_elem_of_singleton.
      intros [?|?]; done.
    + by rewrite Had.
    + intros _. lia.
Qed.

Lemma order_sensitivity_witness :
  (∃ s1,
     process_offline_batch 1 (Some "u")
       [sample_debit; sample_credit] sample_server
     = Returned ({| error := None;
                    processed_ids := ["b"];
                    failed_ids := [("a", "Insufficient balance")];
                    new_balance := Some 15000 |}, s1)) ∧
  (∃ s2,
     process_offline_batch 1 (Some "u")
       [sample_credit; sample_debit] sample_server
     = Returned ({| error := None;
                    processed_ids := ["b"; "a"];
                    failed_ids := [];
                    new_balance := Some 5000 |}, s2)).
Proof.
  destruct (order_sensitivity 1 "u"
    sample_server (mkProfile 5000 None) sample_debit sample_credit)
    as [(s1 & H1 & _) (s2 & H2 & _)].
  - reflexivity.
  - reflexivity.
  - reflexivity.
  - reflexivity.
  - reflexivity.
  - reflexivity.
  - reflexivity.
  - reflexivity.
  - simpl. discriminate.
  - simpl. apply not_elem_of_nil.
  - simpl. apply not_elem_of_nil.
  - split; [exists s1; exact H1 | exists s2; exact H2].
Defined.

(** ** Replaying a batch *)

(** A run that rejects nothing leaves every id of the batch in the ledger. *)
Lemma batch_loop_no_failure uid payload st st' :
  batch_loop uid payload st = Returned st' →
  b_failed_ids st' = b_failed_ids st →
  Forall (fun tx => offline_id tx ∈ map row_offline_id (b_rows st')) payload.
Proof.
  revert st. induction payload as [|tx rest IH]; intros st; simpl; [done|].
  destruct (batch_step uid st tx) as [st1|msg] eqn:Hstep; [|done].
  simpl. intros Hloop Hfail.
  destruct (batch_loop_grows _ _ _ _ Hloop) as (ps & fs & rows & _ & Hf & Hr).
  apply batch_step_cases in Hstep
    as [[Hdup ->]|[[_ [[_ ->]|(_ & _ & _ & ->)]]|(_ & _ & _ & _ & ->)]];
    simpl in *.
  - constructor; [|by apply (IH _ Hloop)].
    rewrite Hr, map_app, elem_of_app. left. by apply existing_count_pos.
  - rewrite Hfail in Hf. apply (f_equal length) in Hf.
    rewrite !length_app in Hf. simpl in Hf. lia.
  - rewrite Hfail in Hf. apply (f_equal length) in Hf.
    rewrite !length_app in Hf. simpl in Hf. lia.
  - constructor; [|by apply (IH _ Hloop)].
    rewrite Hr, !map_app, !elem_of_app. left; right. simpl.
    apply list_elem_of_singleton. done.
Qed.

(** A batch whose ids are all in the ledger is reported processed, entry by
    entry, and nothing else changes. *)
Lemma batch_loop_all_duplicates uid payload st :
  Forall (fun tx => offline_id tx ∈ map row_offline_id (b_rows st)) payload →
  batch_loop uid payload st
  = Returned {| b_processed_ids := b_processed_ids st ++ map offline_id payload;
                b_failed_ids := b_failed_ids st;
                b_new_balance := b_new_balance st;
                b_rows := b_rows st |}.
Proof.
  intros Hall. revert st Hall.
  induction payload as [|tx rest IH]; intros st Hall; simpl.
  - rewrite app_nil_r. by destruct st.
  - inversion Hall as [|? ? Htx Hrest]; subst.
    rewrite batch_step_duplicate by done. simpl.
    rewrite IH by done. simpl. by rewrite <- app_assoc.
Qed.

(** C3, as the code has it.  If the first application of a batch rejects
    no entry, applying the same batch again returns the same [new_balance],
    adds no ledger row and reports every entry of the batch in
    [processed_ids]; and in any state, an entry whose [offline_id] is in
    the ledger is reported processed without touching the running balance,
    the failure list or the ledger. *)
Theorem replay_idempotent now1 now2 uid payload s p r1 s1 :
  profiles s !! uid = Some p →
  process_offline_batch now1 (Some uid) payload s = Returned (r1, s1) →
  failed_ids r1 = [] →
  (∃ s2,
     process_offline_batch now2 (Some uid) payload s1
     = Returned ({| error := None;
                    processed_ids := map offline_id payload;
                    failed_ids := [];
                    new_balance := new_balance r1 |}, s2) ∧
     sql_transactions s2 = sql_transactions s1 ∧
     balance <$> profiles s2 !! uid = balance <$> profiles s1 !! uid) ∧
  (∀ st tx,
     offline_id tx ∈ map row_offline_id (b_rows st) →
     batch_step uid st tx
     = Returned {| b_processed_ids := b_processed_ids st ++ [offline_id tx];
                   b_failed_ids := b_failed_ids st;
                   b_new_balance := b_new_balance st;
                   b_rows := b_rows st |}).
Proof.
  intros Hp Hfirst Hnofail. split; [|intros; by apply batch_step_duplicate].
  unfold process_offline_batch in Hfirst. rewrite Hp in Hfirst.
  destruct (batch_loop _ _ _) as [st|msg] eqn:Hloop; [|done]. simpl in Hfirst.
  destruct (numeric_12_2 (b_new_balance st)) eqn:Hfit; [|done].
  injection Hfirst as <- <-. simpl in *.
  pose proof (batch_loop_no_failure _ _ _ _ Hloop Hnofail) as Hall.
  unfold process_offline_batch. simpl. rewrite lookup_insert_eq. simpl.
  rewrite batch_loop_all_duplicates by done. simpl. rewrite Hfit.
  eexists. split; [done|]. simpl. by rewrite !lookup_insert_eq.
Qed.

Lemma replay_idempotent_witness :
  ∃ s2,
    process_offline_batch 2 (Some "u") [sample_credit; sample_debit]
      {| profiles := {["u" := {| balance := 5000; last_synced_at := Some 1 |}]};
         sql_transactions :=
           [ledger_row "u" sample_credit; ledger_row "u" sample_debit] |}
    = Returned ({| error := None; processed_ids := ["b"; "a"];
                   failed_ids := []; new_balance := Some 5000 |}, s2).
Proof.
  destruct (replay_idempotent 1 2 "u" [sample_credit; sample_debit]
    sample_server {| balance := 5000; last_synced_at := None |}
    {| error := None; processed_ids := ["b"; "a"]; failed_ids := [];
       new_balance := Some 5000 |}
    {| profiles := {["u" := {| balance := 5000; last_synced_at := Some 1 |}]};
       sql_transactions :=
         [ledger_row "u" sample_credit; ledger_row "u" sample_debit] |})
    as [(s2 & H & _) _].
  - reflexivity.
  - vm_compute. reflexivity.
  - reflexivity.
  - exists s2. exact H.
Defined.

(** C3 as stated fails on a batch with a rejected entry: [[debit 100;
    credit 100]] on 50.00 first yields 150.00 with the debit rejected; the
    same batch again accepts the debit, adds its row and yields 50.00. *)
Lemma replay_idempotent_counterexample :
  ∃ r1 s1 r2 s2,
    process_offline_batch 1 (Some "u") [sample_debit; sample_credit]
      sample_server = Returned (r1, s1) ∧
    process_offline_batch 2 (Some "u") [sample_debit; sample_credit] s1
    = Returned (r2, s2) ∧
    new_balance r1 = Some 15000 ∧
    new_balance r2 = Some 5000 ∧
    new_balance r2 ≠ new_balance r1 ∧
    length (sql_transactions s1) = 1%nat ∧
    length (sql_transactions s2) = 2%nat.
Proof.
  do 4 eexists. split; [vm_compute; reflexivity|].
  split; [vm_compute; reflexivity|].
  simpl. repeat split; done.
Qed.

(** ** Amounts are not checked for their sign *)

(** C9, as the code has it.  There is no positivity check: an entry with a
    new [offline_id], a signature and an amount that is zero or negative
    (and fits the column) is accepted when it is a credit, and when it is a
    debit whose amount does not exceed the running balance, which is the
    only test a debit undergoes.  It is then reported processed, its row is
    inserted, and the amount is applied with its sign: a debit of a
    negative amount increases the balance.  For a batch made of one such
    debit the returned and stored balance is the old one minus the amount. *)
Theorem nonpositive_amount_accepted uid st tx :
  offline_id tx ∉ map row_offline_id (b_rows st) →
  missing_signature (signature tx) = false →
  amount tx ≤ 0 →
  numeric_12_2 (amount tx) = true →
  (tx_type tx = debit → amount tx ≤ b_new_balance st) →
  batch_step uid st tx
  = Returned {| b_processed_ids := b_processed_ids st ++ [offline_id tx];
                b_failed_ids := b_failed_ids st;
                b_new_balance :=
                  match tx_type tx with
                  | credit => b_new_balance st + amount tx
                  | debit => b_new_balance st - amount tx
                  end;
                b_rows := b_rows st ++ [ledger_row uid tx] |} ∧
  (tx_type tx = debit → amount tx < 0 →
   b_new_balance st < b_new_balance st - amount tx) ∧
  (∀ now s p,
     tx_type tx = debit →
     profiles s !! uid = Some p →
     b_new_balance st = balance p →
     b_rows st = sql_transactions s →
     numeric_12_2 (balance p - amount tx) = true →
     ∃ s',
       process_offline_batch now (Some uid) [tx] s
       = Returned ({| error := None;
                      processed_ids := [offline_id tx];
                      failed_ids := [];
                      new_balance := Some (balance p - amount tx) |}, s') ∧
       balance <$> profiles s' !! uid = Some (balance p - amount tx)).
Proof.
  intros Hfresh Hsig Hneg Hfit Hle.
  assert (batch_step uid st tx
          = Returned {| b_processed_ids := b_processed_ids st ++ [offline_id tx];
                        b_failed_ids := b_failed_ids st;
                        b_new_balance :=
                          match tx_type tx with
                          | credit => b_new_balance st + amount tx
                          | debit => b_new_balance st - amount tx
                          end;
                        b_rows := b_rows st ++ [ledger_row uid tx] |}) as Hstep.
  { rewrite batch_step_accept by done. unfold signed_amount.
    by destruct (tx_type tx). }
  split; [done|]. split; [intros; lia|].
  intros now s p Hty Hp Hbal Hrows Hfit'.
  unfold process_offline_batch. rewrite Hp. simpl.
  rewrite batch_step_accept; simpl; try done.
  - unfold signed_amount. rewrite Hty.
    replace (balance p + - amount tx) with (balance p - amount tx) by lia.
    rewrite Hfit'. eexists. split; [done|]. simpl.
    by rewrite lookup_insert_eq.
  - by rewrite <- Hrows.
  - intros Hd. specialize (Hle Hd). lia.
Qed.

Lemma nonpositive_amount_accepted_witness :
  batch_step "u"
    {| b_processed_ids := []; b_failed_ids := []; b_new_balance := 5000;
       b_rows := [] |} negative_debit
  = Returned {| b_processed_ids := ["d"]; b_failed_ids := [];
                b_new_balance := 15000;
                b_rows := [ledger_row "u" negative_debit] |}.
Proof.
  apply (nonpositive_amount_accepted "u"
    {| b_processed_ids := []; b_failed_ids := []; b_new_balance := 5000;
       b_rows := [] |} negative_debit).
  - simpl. apply not_elem_of_nil.
  - reflexivity.
  - simpl. lia.
  - reflexivity.
  - simpl. lia.
Defined.

(** C9 as stated fails once the running balance is below the amount: after
    the credit of -300.00 has brought 50.00 down to -250.00, the signed
    debit of -100.00 with a new id is rejected for insufficient balance. *)
Lemma nonpositive_amount_counterexample :
  amount negative_debit < 0 ∧
  missing_signature (signature negative_debit) = false ∧
  ∃ s1,
    process_offline_batch 1 (Some "u") [negative_credit; negative_debit]
      sample_server
    = Returned ({| error := None;
                   processed_ids := ["c"];
                   failed_ids := [("d", "Insufficient balance")];
                   new_balance := Some (-25000) |}, s1) ∧
    sql_transactions s1 = [ledger_row "u" negative_credit].
Proof.
  split; [simpl; lia|]. split; [reflexivity|].
  eexists. split; [vm_compute; reflexivity|]. reflexivity.
Qed.

(** ** The sync cycle *)

(** The path of a cycle that reaches the server and gets a document back. *)
Lemma sync_applies_response env rpc userId db response :
  online env = true →
  supabase_configured env = true →
  getPendingTransactions userId db ≠ [] →
  rpc (getPendingTransactions userId db) = Returned response →
  syncOfflineTransactions env rpc userId db
  = (Some response,
     let db1 :=
       if (0 <? length (processed_ids response))%nat
       then markTransactionsSynced (processed_ids response) db else db in
     match new_balance response with
     | Some b => updateWalletState (synced_wallet userId b (date_now env)) db1
     | None => db1
     end).
Proof.
  intros Hon Hconf Hne Hrpc. unfold syncOfflineTransactions.
  rewrite Hon, Hconf. simpl.
  destruct (getPendingTransactions userId db) as [|tx l] eqn:Hp; [done|].
  simpl. rewrite Hrpc. done.
Qed.

(** Every other path leaves the store as it was. *)
Lemma sync_no_response env rpc userId db :
  online env = false ∨ supabase_configured env = false
  ∨ getPendingTransactions userId db = []
  ∨ (∃ msg, rpc (getPendingTransactions userId db) = Raised msg) →
  snd (syncOfflineTransactions env rpc userId db) = db.
Proof.
  unfold syncOfflineTransactions.
  destruct (online env); simpl; [|done].
  destruct (supabase_configured env); simpl; [|done].
  destruct (getPendingTransactions userId db) as [|tx l] eqn:Hp; simpl; [done|].
  intros [?|[?|[?|[msg Hr]]]]; try done. by rewrite Hr.
Qed.

(** A document with empty [processed_ids] and [new_balance] 0, as the
    server builds it for "Not authenticated" and "Profile not found", leaves
    every transaction as it was and overwrites the wallet with a zero
    balance. *)
Lemma sync_error_response env rpc userId db msg :
  online env = true →
  supabase_configured env = true →
  getPendingTransactions userId db ≠ [] →
  rpc (getPendingTransactions userId db) = Returned (error_response msg) →
  syncOfflineTransactions env rpc userId db
  = (Some (error_response msg),
     {| transactions := transactions db;
        wallet := <[userId := synced_wallet userId 0 (date_now env)]>
                    (wallet db) |}).
Proof.
  intros Hon Hconf Hne Hrpc.
  by rewrite (sync_applies_response _ _ _ _ _ Hon Hconf Hne Hrpc).
Qed.

(** C4 at a failing input: the device of user "u" syncs while its session
    has expired.  The server answers "Not authenticated"; the queued debit
    stays pending, but the wallet that showed 10000.00 confirmed and
    9900.00 available is overwritten with balances of zero. *)
Theorem sync_unauthenticated_resets_wallet :
  syncOfflineTransactions sample_env (supabase_rpc 1 None sample_server)
    "u" sample_db
  = (Some (error_response "Not authenticated"),
     {| transactions := [sample_debit];
        wallet := {["u" := synced_wallet "u" 0 5000]} |}) ∧
  getWalletState "u" sample_db = Some sample_wallet ∧
  cached_balance sample_wallet = 1000000 ∧
  shadow_balance sample_wallet = 990000 ∧
  synced_wallet "u" 0 5000 ≠ sample_wallet.
Proof.
  split; [|done].
  by rewrite (sync_error_response _ _ _ _ "Not authenticated").
Qed.

(** C10. When a cycle reaches the server and the response carries a
    [new_balance], the user's wallet record afterwards has exactly the
    fields [id], [cached_balance], [shadow_balance] and [last_updated];
    [pending_debits], [pending_credits] and [last_sync_success] are gone
    whatever they were before, and [checkWalletStaleness] reports the
    wallet stale at any later time. *)
Theorem sync_replaces_wallet env rpc userId db response b :
  online env = true →
  supabase_configured env = true →
  getPendingTransactions userId db ≠ [] →
  rpc (getPendingTransactions userId db) = Returned response →
  new_balance response = Some b →
  ∃ db',
    syncOfflineTransactions env rpc userId db = (Some response, db') ∧
    getWalletState userId db'
    = Some {| wallet_id := userId; cached_balance := b; shadow_balance := b;
              last_updated := date_now env; pending_debits := None;
              pending_credits := None; last_sync_success := None |} ∧
    (∀ now, checkWalletStaleness now userId db' = true).
Proof.
  intros Hon Hconf Hne Hrpc Hb.
  rewrite (sync_applies_response _ _ _ _ _ Hon Hconf Hne Hrpc), Hb.
  eexists. split; [done|].
  unfold checkWalletStaleness, getWalletState, updateWalletState. simpl.
  rewrite lookup_insert_eq. done.
Qed.

Lemma sync_replaces_wallet_witness :
  ∃ db',
    syncOfflineTransactions sample_env (supabase_rpc 1 (Some "u") sample_server)
      "u" sample_db
    = (Some {| error := None; processed_ids := [];
               failed_ids := [("a", "Insufficient balance")];
               new_balance := Some 5000 |}, db') ∧
    getWalletState "u" db' = Some (synced_wallet "u" 5000 5000) ∧
    (∀ now, checkWalletStaleness now "u" db' = true).
Proof.
  apply (sync_replaces_wallet sample_env
           (supabase_rpc 1 (Some "u") sample_server) "u" sample_db
           {| error := None; processed_ids := [];
              failed_ids := [("a", "Insufficient balance")];
              new_balance := Some 5000 |} 5000).
  - reflexivity.
  - reflexivity.
  - vm_compute. discriminate.
  - vm_compute. reflexivity.
  - reflexivity.
Defined.

(** ** Entries the server rejected *)

Lemma markTransactionsSynced_lookup ids db i :
  transactions (markTransactionsSynced ids db) !! i
  = (fun tx =>
       if decide (offline_id tx ∈ ids)
       then modify (mkUpdates (Some synced) None None) tx else tx)
    <$> transactions db !! i.
Proof. unfold markTransactionsSynced. simpl. apply list_lookup_fmap. Qed.

Lemma markTransactionsSynced_other ids db i tx :
  transactions db !! i = Some tx →
  offline_id tx ∉ ids →
  transactions (markTransactionsSynced ids db) !! i = Some tx.
Proof.
  intros Hi Hnot. rewrite markTransactionsSynced_lookup, Hi. simpl.
  by case_decide.
Qed.

Lemma getPendingTransactions_elem userId db tx :
  tx ∈ getPendingTransactions userId db
  ↔ tx ∈ transactions db ∧ user_id tx = userId ∧ sync_status tx = pending.
Proof. unfold getPendingTransactions. rewrite list_elem_of_filter. tauto. Qed.

(** A cycle changes no entry whose id is not in [processed_ids]. *)
Lemma sync_keeps_unprocessed env rpc userId db response db' i tx :
  syncOfflineTransactions env rpc userId db = (Some response, db') →
  transactions db !! i = Some tx →
  offline_id tx ∉ processed_ids response →
  transactions db' !! i = Some tx.
Proof.
  unfold syncOfflineTransactions.
  destruct (online env); simpl; [|done].
  destruct (supabase_configured env); simpl; [|done].
  destruct (length (getPendingTransactions userId db) =? 0)%nat.
  { by intros [= <- <-]. }
  destruct (rpc _) as [r|msg]; [|done].
  intros [= -> <-] Hi Hnot.
  assert (transactions
            (if (0 <? length (processed_ids response))%nat
             then markTransactionsSynced (processed_ids response) db else db)
          !! i = Some tx) as H.
  { destruct (0 <? _)%nat; [by apply markTransactionsSynced_other|done]. }
  by destruct (new_balance response).
Qed.

(** C5, as the code has it.  Applying a response advances only the entries
    named in [processed_ids].  An entry reported with a failure reason (and
    not processed) is left exactly as it was, with its status and its
    [retry_count], so a pending one is part of the next batch again; no
    retry ceiling is applied.  A batch holds pending entries only: once
    [updateTransactionStatus] has set an entry to failed or conflict, it is
    in no later batch. *)
Theorem failed_ids_stay_pending env rpc userId db response db' :
  syncOfflineTransactions env rpc userId db = (Some response, db') →
  (∀ i tx reason,
     transactions db !! i = Some tx →
     (offline_id tx, reason) ∈ failed_ids response →
     offline_id tx ∉ processed_ids response →
     transactions db' !! i = Some tx) ∧
  (∀ tx reason,
     tx ∈ getPendingTransactions userId db →
     (offline_id tx, reason) ∈ failed_ids response →
     offline_id tx ∉ processed_ids response →
     tx ∈ getPendingTransactions userId db') ∧
  (∀ now oid status incrementRetry uid tx,
     status ≠ pending →
     tx ∈ getPendingTransactions uid
            (updateTransactionStatus now oid status incrementRetry db') →
     offline_id tx ≠ oid).
Proof.
  intros Hsync. split; [|split].
  - intros i tx reason Hi _ Hnot.
    by apply (sync_keeps_unprocessed _ _ _ _ _ _ _ _ Hsync).
  - intros tx reason (Hin & Hu & Hs)%getPendingTransactions_elem _ Hnot.
    apply getPendingTransactions_elem. split; [|done].
    apply list_elem_of_lookup in Hin as [i Hi].
    apply list_elem_of_lookup. exists i.
    by apply (sync_keeps_unprocessed _ _ _ _ _ _ _ _ Hsync).
  - intros now oid status b uid tx Hst
      (Hin & _ & Hs)%getPendingTransactions_elem Heq.
    unfold updateTransactionStatus in Hin. simpl in Hin.
    apply list_elem_of_fmap in Hin as (tx0 & -> & _).
    case_decide as Hd; simpl in *; [congruence|].
    by rewrite Heq in Hd.
Qed.

Lemma failed_ids_stay_pending_witness :
  transactions
    (snd (syncOfflineTransactions sample_env
            (supabase_rpc 1 (Some "u") sample_server) "u" sample_db))
  !! 0%nat = Some sample_debit.
Proof.
  destruct (failed_ids_stay_pending sample_env
              (supabase_rpc 1 (Some "u") sample_server) "u" sample_db
              {| error := None; processed_ids := [];
                 failed_ids := [("a", "Insufficient balance")];
                 new_balance := Some 5000 |}
              (snd (syncOfflineTransactions sample_env
                      (supabase_rpc 1 (Some "u") sample_server) "u" sample_db)))
    as [H _].
  - vm_compute. reflexivity.
  - apply (H 0%nat sample_debit "Insufficient balance").
    + reflexivity.
    + simpl. apply list_elem_of_singleton. reflexivity.
    + simpl. apply not_elem_of_nil.
Defined.

(** C5 as stated fails: the server rejects the debit "a" (100.00 against
    50.00) with a reason, and after the cycle the entry is still pending
    with no retry count, and is in the next batch; six such cycles in a row
    leave it so. *)
Lemma failed_ids_counterexample :
  fst (syncOfflineTransactions sample_env
         (supabase_rpc 1 (Some "u") sample_server) "u" sample_db)
  = Some {| error := None; processed_ids := [];
            failed_ids := [("a", "Insufficient balance")];
            new_balance := Some 5000 |} ∧
  transactions rejected_six_times = [sample_debit] ∧
  sync_status sample_debit = pending ∧
  retry_count sample_debit = None ∧
  getPendingTransactions "u" rejected_six_times = [sample_debit].
Proof.
  split; [vm_compute; reflexivity|].
  split; [vm_compute; reflexivity|]. done.
Qed.

(** ** The shadow balance *)

Lemma sum_of_type_total k txs :
  sum_of_type k txs
  = total (amount <$> filter (fun tx => tx_type tx = k) txs).
Proof.
  induction txs as [|tx txs IH]; [done|].
  rewrite sum_of_type_cons, filter_cons, IH.
  by case_decide.
Qed.

(** C6, as the code has it.  For a user with a wallet record,
    [updateWalletPendingAmounts] stores
    [shadow_balance = cached_balance - pending_debits + pending_credits],
    where the two aggregates are the sums of the amounts of the user's
    debits and credits whose status is exactly pending; entries in syncing
    or failed state are not counted.  The confirmed balance, the timestamps
    and the transactions are left as they were.  (A wallet record is stored
    under its own [id], the key path of the table.) *)
Theorem shadow_balance_recomputed userId db w :
  getWalletState userId db = Some w →
  wallet_id w = userId →
  let counted k :=
    filter (fun tx => tx_type tx = k)
      (filter (fun tx => user_id tx = userId ∧ sync_status tx = pending)
         (transactions db)) in
  let debits := total (amount <$> counted debit) in
  let credits := total (amount <$> counted credit) in
  getWalletState userId (updateWalletPendingAmounts userId db)
  = Some {| wallet_id := userId;
            cached_balance := cached_balance w;
            shadow_balance := cached_balance w - debits + credits;
            last_updated := last_updated w;
            pending_debits := Some debits;
            pending_credits := Some credits;
            last_sync_success := last_sync_success w |} ∧
  transactions (updateWalletPendingAmounts userId db) = transactions db ∧
  (∀ tx, tx ∈ counted debit ∨ tx ∈ counted credit → sync_status tx = pending).
Proof.
  intros Hw Hid. simpl. unfold updateWalletPendingAmounts. rewrite Hw.
  unfold getWalletState, updateWalletState. simpl.
  rewrite Hid, lookup_insert_eq, !sum_of_type_total.
  split; [done|]. split; [done|].
  intros tx [H|H]; apply list_elem_of_filter in H as [_ H];
    apply list_elem_of_filter in H as [[_ H] _]; done.
Qed.

Lemma shadow_balance_recomputed_witness :
  getWalletState "u" (updateWalletPendingAmounts "u" sample_db)
  = Some {| wallet_id := "u"; cached_balance := 1000000;
            shadow_balance := 990000; last_updated := 4000;
            pending_debits := Some 10000; pending_credits := Some 0;
            last_sync_success := Some 4000 |}.
Proof.
  destruct (shadow_balance_recomputed "u" sample_db sample_wallet) as [H _].
  - reflexivity.
  - reflexivity.
  - exact H.
Defined.

(** C6 as stated fails: with the debit "a" of 100.00 in failed state and
    10000.00 confirmed, the aggregates over pending, syncing and failed
    entries give 9900.00, but the recomputation counts no debit and stores
    a shadow balance of 10000.00. *)
Lemma shadow_balance_counterexample :
  ∃ w,
    getWalletState "u" (updateWalletPendingAmounts "u" failed_db) = Some w ∧
    shadow_balance w = 1000000 ∧
    pending_debits w = Some 0 ∧
    spec_pending_sum debit "u" failed_db = 10000 ∧
    shadow_balance w
    ≠ cached_balance w - spec_pending_sum debit "u" failed_db
      + spec_pending_sum credit "u" failed_db.
Proof.
  eexists. split; [vm_compute; reflexivity|]. simpl.
  repeat split; done.
Qed.

(** ** Status transitions *)

Lemma modify_synced_id tx :
  sync_status tx = synced →
  modify (mkUpdates (Some synced) None None) tx = tx.
Proof. destruct tx. simpl. by intros ->. Qed.

(** Marking by [offline_id] commutes with selecting by [offline_id]. *)
Lemma filter_offline_id_fmap (f : OfflineTransaction → OfflineTransaction)
    oid (txs : list OfflineTransaction) :
  (∀ tx, offline_id (f tx) = offline_id tx) →
  filter (fun tx => offline_id tx = oid) (f <$> txs)
  = f <$> filter (fun tx => offline_id tx = oid) txs.
Proof.
  intros Hf. induction txs as [|tx txs IH]; [done|].
  rewrite fmap_cons, !filter_cons, Hf, IH. by case_decide.
Qed.

(** C7, as the code has it.  [markTransactionsSynced] is idempotent and
    leaves an entry that is already synced entirely unchanged.
    [updateTransactionStatus] without [incrementRetry] stamps
    [last_sync_attempt] with the current time at every call: applying it
    twice gives the state of applying it once at the later time, and
    re-marking an entry with the status it already has (conflict, say)
    changes its [last_sync_attempt] and nothing else.  With
    [incrementRetry], as for a failure, every call adds one to the
    [retry_count] of the entry. *)
Theorem status_marking_repeated offlineIds db :
  markTransactionsSynced offlineIds (markTransactionsSynced offlineIds db)
  = markTransactionsSynced offlineIds db ∧
  (∀ i tx,
     transactions db !! i = Some tx →
     sync_status tx = synced →
     transactions (markTransactionsSynced offlineIds db) !! i = Some tx) ∧
  (∀ now1 now2 oid status,
     updateTransactionStatus now2 oid status false
       (updateTransactionStatus now1 oid status false db)
     = updateTransactionStatus now2 oid status false db) ∧
  (∀ now oid status i tx,
     transactions db !! i = Some tx →
     offline_id tx = oid →
     sync_status tx = status →
     transactions (updateTransactionStatus now oid status false db) !! i
     = Some (modify (mkUpdates None (Some now) None) tx)) ∧
  (∀ now oid status tx,
     head (filter (fun t => offline_id t = oid) (transactions db)) = Some tx →
     head (filter (fun t => offline_id t = oid)
             (transactions (updateTransactionStatus now oid status true db)))
     = Some (modify (mkUpdates (Some status) (Some now)
                       (Some (default 0 (retry_count tx) + 1))) tx)).
Proof.
  repeat split.
  - unfold markTransactionsSynced, set_transactions. simpl. f_equal.
    rewrite <- list_fmap_compose. apply list_fmap_ext. intros i tx _. simpl.
    case_decide as H1; simpl; by case_decide.
  - intros i tx Hi Hs. rewrite markTransactionsSynced_lookup, Hi. simpl.
    case_decide; [by rewrite modify_synced_id|done].
  - intros now1 now2 oid status.
    unfold updateTransactionStatus, set_transactions. simpl. f_equal.
    rewrite <- list_fmap_compose. apply list_fmap_ext. intros i tx _. simpl.
    case_decide as H1; simpl; by case_decide.
  - intros now oid status i tx Hi Hoid Hs.
    unfold updateTransactionStatus. simpl.
    rewrite list_lookup_fmap, Hi. simpl. case_decide; [|done].
    destruct tx. simpl in *. by subst.
  - intros now oid status tx Hhd.
    unfold updateTransactionStatus. simpl. rewrite Hhd.
    rewrite filter_offline_id_fmap.
    + destruct (filter _ (transactions db)) as [|t l] eqn:Hf; [done|].
      simpl in *. injection Hhd as ->.
      assert (tx ∈ filter (fun t => offline_id t = oid) (transactions db))
        as [Hoid _]%list_elem_of_filter by (rewrite Hf; left).
      by case_decide.
    + intros t. by case_decide.
Qed.

(** C7 as stated fails for [updateTransactionStatus]: flagging the conflict
    entry "a" as a conflict again, at time 20, changes the entry (its
    [last_sync_attempt] moves from 10 to 20); and marking the debit "a"
    failed twice, even at one and the same time, leaves a [retry_count] of 2
    where marking it once leaves 1. *)
Lemma status_marking_counterexample :
  sync_status conflict_debit = conflict ∧
  updateTransactionStatus 20 "a" conflict false conflict_db ≠ conflict_db ∧
  retry_count <$>
    transactions (updateTransactionStatus 20 "a" failed true sample_db)
  = [Some 1] ∧
  retry_count <$>
    transactions
      (updateTransactionStatus 20 "a" failed true
         (updateTransactionStatus 20 "a" failed true sample_db))
  = [Some 2].
Proof.
  split; [reflexivity|]. split; [|split; vm_compute; reflexivity].
  intros H. apply (f_equal transactions) in H. vm_compute in H. discriminate.
Qed.

(** ** Retention *)

(** C8. The purge deletes exactly the transactions of the user that are
    synced and older than the cutoff, [Date.now()] minus the horizon (30
    days when none is given): what remains is the rest of the table in its
    order, so every entry of another user, every entry in pending, syncing,
    failed or conflict state and every synced entry not older than the
    cutoff is still there, unchanged; the wallet table is not touched.
    [cleanupOldTransactions] does the same and returns the number of
    entries deleted. *)
Theorem purge_deletes_old_synced now userId daysOld db :
  let horizon := default 30 daysOld in
  let cutoff := now - horizon * 86400000 in
  let purged tx :=
    user_id tx = userId ∧ sync_status tx = synced ∧ timestamp tx < cutoff in
  let db' := clearOldSyncedTransactions now userId daysOld db in
  (∀ tx, tx ∈ transactions db' ↔ tx ∈ transactions db ∧ ¬ purged tx) ∧
  sublist (transactions db') (transactions db) ∧
  (length (transactions db')
   + length (filter purged (transactions db))
   = length (transactions db))%nat ∧
  (∀ tx, tx ∈ transactions db →
         sync_status tx ∈ [pending; syncing; failed; conflict] →
         tx ∈ transactions db') ∧
  (∀ tx, tx ∈ transactions db →
         sync_status tx = synced → cutoff ≤ timestamp tx →
         tx ∈ transactions db') ∧
  wallet db' = wallet db ∧
  cleanupOldTransactions now userId daysOld db
  = (length (filter purged (transactions db)), db').
Proof.
  simpl.
  assert (∀ tx, old_synced now userId daysOld tx
                ↔ user_id tx = userId ∧ sync_status tx = synced
                  ∧ timestamp tx < now - default 30 daysOld * 86400000) as Hold.
  { intros tx. unfold old_synced, cutoffTime, daysOld_default.
    split; intros (? & ? & ?); repeat split; try done; lia. }
  assert (∀ tx, tx ∈ transactions (clearOldSyncedTransactions now userId daysOld db)
                ↔ tx ∈ transactions db
                  ∧ ¬ (user_id tx = userId ∧ sync_status tx = synced
                       ∧ timestamp tx < now - default 30 daysOld * 86400000))
    as Hmem.
  { intros tx. unfold clearOldSyncedTransactions. simpl.
    rewrite list_elem_of_filter, Hold. tauto. }
  assert (filter (old_synced now userId daysOld) (transactions db)
          = filter (fun tx => user_id tx = userId ∧ sync_status tx = synced
                      ∧ timestamp tx < now - default 30 daysOld * 86400000)
              (transactions db)) as Hfil.
  { by apply list_filter_iff. }
  split; [done|]. split; [apply sublist_filter|].
  split.
  { rewrite <- Hfil. unfold clearOldSyncedTransactions. simpl.
    pose proof (filter_app_complement (old_synced now userId daysOld)
                  (transactions db)) as Hperm.
    apply Permutation_length in Hperm. rewrite length_app in Hperm. lia. }
  split.
  { intros tx Hin Hst. apply Hmem. split; [done|]. intros (_ & Hs & _).
    rewrite Hs in Hst. repeat (apply elem_of_cons in Hst as [Hst|Hst]; [done|]).
    by apply elem_of_nil in Hst. }
  split.
  { intros tx Hin Hs Hts. apply Hmem. split; [done|]. intros (_ & _ & ?). lia. }
  split; [done|].
  unfold cleanupOldTransactions. by rewrite Hfil.
Qed.

(** * Further properties of the reconciliation function *)

Lemma map_is_fmap {A B} (f : A → B) (l : list A) : map f l = f <$> l.
Proof. reflexivity. Qed.

(** Every entry of the batch ends in exactly one of the two lists, each of
    which keeps the order of the batch. *)
Lemma batch_loop_reported uid payload st st' :
  batch_loop uid payload st = Returned st' →
  ∃ ps fs,
    b_processed_ids st' = b_processed_ids st ++ ps ∧
    b_failed_ids st' = b_failed_ids st ++ fs ∧
    offline_id <$> payload ≡ₚ ps ++ fs.*1 ∧
    sublist ps (offline_id <$> payload) ∧
    sublist (fs.*1) (offline_id <$> payload).
Proof.
  revert st. induction payload as [|tx rest IH]; intros st; simpl.
  - intros [= <-]. exists [], []. by rewrite !app_nil_r.
  - destruct (batch_step uid st tx) as [st1|msg] eqn:Hstep; [|done].
    simpl. intros Hloop.
    destruct (IH _ Hloop) as (ps & fs & Hp & Hf & Hperm & Hs1 & Hs2).
    apply batch_step_cases in Hstep
      as [[_ ->]|[[_ [[_ ->]|(_ & _ & _ & ->)]]|(_ & _ & _ & _ & ->)]];
      simpl in *.
    + exists (offline_id tx :: ps), fs. rewrite Hp, <- app_assoc.
      split_and!; try done.
      * simpl. by constructor.
      * by constructor.
      * by apply sublist_cons.
    + eexists ps, ((offline_id tx, _) :: fs). rewrite Hf, <- app_assoc.
      split_and!; try done.
      * rewrite fmap_cons. simpl. rewrite <- Permutation_middle.
        by constructor.
      * by apply sublist_cons.
      * rewrite fmap_cons. simpl. by constructor.
    + eexists ps, ((offline_id tx, _) :: fs). rewrite Hf, <- app_assoc.
      split_and!; try done.
      * rewrite fmap_cons. simpl. rewrite <- Permutation_middle.
        by constructor.
      * by apply sublist_cons.
      * rewrite fmap_cons. simpl. by constructor.
    + exists (offline_id tx :: ps), fs. rewrite Hp, <- app_assoc.
      split_and!; try done.
      * simpl. by constructor.
      * by constructor.
      * by apply sublist_cons.
Qed.

(** X1. Nothing is dropped and nothing invented: when the function returns
    for a user with a profile, the ids of the batch are, with their
    multiplicities, the ids of [processed_ids] together with those of
    [failed_ids], and each of the two lists keeps the order of the batch. *)
Theorem every_entry_reported now uid payload s p response s' :
  profiles s !! uid = Some p →
  process_offline_batch now (Some uid) payload s = Returned (response, s') →
  offline_id <$> payload
    ≡ₚ processed_ids response ++ (failed_ids response).*1 ∧
  sublist (processed_ids response) (offline_id <$> payload) ∧
  sublist ((failed_ids response).*1) (offline_id <$> payload).
Proof.
  intros Hp. unfold process_offline_batch. rewrite Hp.
  destruct (batch_loop _ _ _) as [st|msg] eqn:Hloop; [|done]. simpl.
  destruct (numeric_12_2 (b_new_balance st)); [|done].
  intros [= <- <-]. simpl.
  destruct (batch_loop_reported _ _ _ _ Hloop)
    as (ps & fs & Hps & Hfs & Hperm & Hs1 & Hs2).
  simpl in *. by subst.
Qed.

Lemma every_entry_reported_witness :
  offline_id <$> [sample_debit; sample_credit]
    ≡ₚ ["b"] ++ [("a", "Insufficient balance")].*1.
Proof.
  destruct (every_entry_reported 1 "u" [sample_debit; sample_credit]
    sample_server (mkProfile 5000 None)
    {| error := None; processed_ids := ["b"];
       failed_ids := [("a", "Insufficient balance")];
       new_balance := Some 15000 |}
    (mkServer {["u" := mkProfile 15000 (Some 1)]}
       [mkRow "u" 10000 credit "refund" synced "b" "9c1e"]))
    as [H _].
  - reflexivity.
  - vm_compute. reflexivity.
  - exact H.
Defined.

(** Why an entry is in the failure list. *)
Lemma batch_loop_failure_reasons uid payload st st' oid reason :
  batch_loop uid payload st = Returned st' →
  (oid, reason) ∈ b_failed_ids st' →
  (oid, reason) ∈ b_failed_ids st
  ∨ ∃ tx, tx ∈ payload ∧ offline_id tx = oid ∧
      ((reason = "Missing signature"
        ∧ missing_signature (signature tx) = true)
       ∨ (reason = "Insufficient balance"
          ∧ tx_type tx = debit
          ∧ missing_signature (signature tx) = false)).
Proof.
  revert st. induction payload as [|tx rest IH]; intros st; simpl.
  - intros [= <-] Hin. by left.
  - destruct (batch_step uid st tx) as [st1|msg] eqn:Hstep; [|done].
    simpl. intros Hloop Hin.
    destruct (IH _ Hloop Hin) as [Hold|(t & Ht & Hid & Hr)].
    2:{ right. exists t. split; [by right|done]. }
    apply batch_step_cases in Hstep
      as [[_ ->]|[[_ [[Hs ->]|(Hs & Hd & _ & ->)]]|(_ & _ & _ & _ & ->)]];
      simpl in *.
    + by left.
    + apply elem_of_app in Hold as [?|Hnew]; [by left|].
      apply list_elem_of_singleton in Hnew as [= -> ->].
      right. exists tx. split; [by left|]. split; [done|]. by left.
    + apply elem_of_app in Hold as [?|Hnew]; [by left|].
      apply list_elem_of_singleton in Hnew as [= -> ->].
      right. exists tx. split; [by left|]. split; [done|]. by right.
    + by left.
Qed.

(** X2. An entry is rejected for one of two reasons only, and each names
    an entry of the batch: "Missing signature" an entry without a
    signature, "Insufficient balance" a signed debit.  A credit is never
    rejected for its amount. *)
Theorem failure_reasons now auth_uid payload s response s' oid reason :
  process_offline_batch now auth_uid payload s = Returned (response, s') →
  (oid, reason) ∈ failed_ids response →
  ∃ tx, tx ∈ payload ∧ offline_id tx = oid ∧
    ((reason = "Missing signature"
      ∧ missing_signature (signature tx) = true)
     ∨ (reason = "Insufficient balance"
        ∧ tx_type tx = debit
        ∧ missing_signature (signature tx) = false)).
Proof.
  unfold process_offline_batch.
  destruct auth_uid as [uid|].
  2:{ intros [= <- <-] Hin. by apply elem_of_nil in Hin. }
  destruct (profiles s !! uid) as [p|].
  2:{ intros [= <- <-] Hin. by apply elem_of_nil in Hin. }
  destruct (batch_loop _ _ _) as [st|msg] eqn:Hloop; [|done]. simpl.
  destruct (numeric_12_2 (b_new_balance st)); [|done].
  intros [= <- <-] Hin. simpl in Hin.
  destruct (batch_loop_failure_reasons _ _ _ _ _ _ Hloop Hin) as [Hold|H];
    [|done].
  by apply elem_of_nil in Hold.
Qed.

Lemma failure_reasons_witness :
  ∃ tx, tx ∈ [sample_debit; sample_credit] ∧ offline_id tx = "a" ∧
    (("Insufficient balance" = "Missing signature"
      ∧ missing_signature (signature tx) = true)
     ∨ ("Insufficient balance" = "Insufficient balance"
        ∧ tx_type tx = debit
        ∧ missing_signature (signature tx) = false)).
Proof.
  apply (failure_reasons 1 (Some "u") [sample_debit; sample_credit]
    sample_server
    {| error := None; processed_ids := ["b"];
       failed_ids := [("a", "Insufficient balance")];
       new_balance := Some 15000 |}
    (mkServer {["u" := mkProfile 15000 (Some 1)]}
       [mkRow "u" 10000 credit "refund" synced "b" "9c1e"])).
  - vm_compute. reflexivity.
  - apply list_elem_of_singleton. reflexivity.
Defined.

(** The loop keeps the ledger free of repeated ids. *)
Lemma batch_loop_nodup uid payload st st' :
  batch_loop uid payload st = Returned st' →
  NoDup (row_offline_id <$> b_rows st) →
  NoDup (row_offline_id <$> b_rows st').
Proof.
  revert st. induction payload as [|tx rest IH]; intros st; simpl.
  - by intros [= <-].
  - destruct (batch_step uid st tx) as [st1|msg] eqn:Hstep; [|done].
    simpl. intros Hloop Hnd. apply (IH _ Hloop).
    apply batch_step_cases in Hstep
      as [[_ ->]|[[_ [[_ ->]|(_ & _ & _ & ->)]]|(Hfresh & _ & _ & _ & ->)]];
      simpl; try done.
    rewrite fmap_app. apply NoDup_app. split; [done|].
    split; [|apply NoDup_singleton].
    intros oid Hin Hin'. simpl in Hin'.
    apply list_elem_of_singleton in Hin' as ->.
    by apply existing_count_zero in Hfresh.
Qed.

(** Every id the loop reports as processed is in the ledger when it ends. *)
Lemma batch_loop_processed_stored uid payload st st' :
  batch_loop uid payload st = Returned st' →
  Forall (fun oid => oid ∈ row_offline_id <$> b_rows st) (b_processed_ids st) →
  Forall (fun oid => oid ∈ row_offline_id <$> b_rows st') (b_processed_ids st').
Proof.
  revert st. induction payload as [|tx rest IH]; intros st; simpl.
  - by intros [= <-].
  - destruct (batch_step uid st tx) as [st1|msg] eqn:Hstep; [|done].
    simpl. intros Hloop Hall. apply (IH _ Hloop).
    apply batch_step_cases in Hstep
      as [[Hdup ->]|[[_ [[_ ->]|(_ & _ & _ & ->)]]|(_ & _ & _ & _ & ->)]];
      simpl; try done.
    + apply Forall_app. split; [done|]. apply Forall_singleton.
      by apply existing_count_pos.
    + apply Forall_app. split.
      * eapply Forall_impl; [exact Hall|]. intros oid Hin.
        rewrite fmap_app. apply elem_of_app. by left.
      * apply Forall_singleton. rewrite fmap_app. apply elem_of_app.
        right. simpl. by apply list_elem_of_singleton.
Qed.

(** X3. The unique constraint on [offline_id] is never violated: if no two
    ledger rows share an id before the call, none do after it. *)
Theorem ledger_ids_stay_unique now auth_uid payload s response s' :
  NoDup (row_offline_id <$> sql_transactions s) →
  process_offline_batch now auth_uid payload s = Returned (response, s') →
  NoDup (row_offline_id <$> sql_transactions s').
Proof.
  intros Hnd. unfold process_offline_batch.
  destruct auth_uid as [uid|]; [|by intros [= <- <-]].
  destruct (profiles s !! uid) as [p|]; [|by intros [= <- <-]].
  destruct (batch_loop _ _ _) as [st|msg] eqn:Hloop; [|done]. simpl.
  destruct (numeric_12_2 (b_new_balance st)); [|done].
  intros [= <- <-]. simpl.
  by apply (batch_loop_nodup _ _ _ _ Hloop).
Qed.

Lemma ledger_ids_stay_unique_witness :
  NoDup (row_offline_id
           <$> [mkRow "u" 10000 credit "refund" synced "b" "9c1e"]).
Proof.
  apply (ledger_ids_stay_unique 1 (Some "u") [sample_debit; sample_credit]
    sample_server
    {| error := None; processed_ids := ["b"];
       failed_ids := [("a", "Insufficient balance")];
       new_balance := Some 15000 |}
    (mkServer {["u" := mkProfile 15000 (Some 1)]}
       [mkRow "u" 10000 credit "refund" synced "b" "9c1e"])).
  - simpl. apply NoDup_nil_2.
  - vm_compute. reflexivity.
Defined.

(** X4. Whatever is reported as processed is stored: after a call that
    returns for a user with a profile, every id of [processed_ids] is the
    [offline_id] of a ledger row, so that an entry the device marks synced
    is an entry the server holds. *)
Theorem processed_ids_are_stored now uid payload s p response s' :
  profiles s !! uid = Some p →
  process_offline_batch now (Some uid) payload s = Returned (response, s') →
  ∀ oid, oid ∈ processed_ids response →
         oid ∈ row_offline_id <$> sql_transactions s'.
Proof.
  intros Hp. unfold process_offline_batch. rewrite Hp.
  destruct (batch_loop _ _ _) as [st|msg] eqn:Hloop; [|done]. simpl.
  destruct (numeric_12_2 (b_new_balance st)); [|done].
  intros [= <- <-] oid Hin. simpl in *.
  apply batch_loop_processed_stored in Hloop; [|by constructor].
  by apply (proj1 (Forall_forall _ _) Hloop).
Qed.

Lemma processed_ids_are_stored_witness :
  "b" ∈ row_offline_id
          <$> [mkRow "u" 10000 credit "refund" synced "b" "9c1e"].
Proof.
  apply (processed_ids_are_stored 1 "u" [sample_debit; sample_credit]
    sample_server (mkProfile 5000 None)
    {| error := None; processed_ids := ["b"];
       failed_ids := [("a", "Insufficient balance")];
       new_balance := Some 15000 |}
    (mkServer {["u" := mkProfile 15000 (Some 1)]}
       [mkRow "u" 10000 credit "refund" synced "b" "9c1e"])).
  - reflexivity.
  - vm_compute. reflexivity.
  - apply list_elem_of_singleton. reflexivity.
Defined.

(** X5. The call touches nothing but the caller's own account: the old
    ledger rows stay, in place; every row added belongs to the caller, is
    marked synced and carries a signature; no profile is created or
    deleted, and the profile of every other user is left as it was. *)
Theorem batch_frames_server now auth_uid payload s response s' :
  process_offline_batch now auth_uid payload s = Returned (response, s') →
  (∃ new_rows,
     sql_transactions s' = sql_transactions s ++ new_rows ∧
     Forall (fun row => Some (row_user_id row) = auth_uid
                        ∧ row_status row = synced
                        ∧ row_signature row ≠ EmptyString) new_rows) ∧
  (∀ uid, auth_uid ≠ Some uid → profiles s' !! uid = profiles s !! uid) ∧
  dom (profiles s') = dom (profiles s).
Proof.
  unfold process_offline_batch.
  destruct auth_uid as [uid|].
  2:{ intros [= <- <-]. split; [|done]. exists []. by rewrite app_nil_r. }
  destruct (profiles s !! uid) as [p|] eqn:Hp.
  2:{ intros [= <- <-]. split; [|done]. exists []. by rewrite app_nil_r. }
  destruct (batch_loop _ _ _) as [st|msg] eqn:Hloop; [|done]. simpl.
  destruct (numeric_12_2 (b_new_balance st)); [|done].
  intros [= <- <-]. simpl.
  destruct (batch_loop_conservation _ _ _ _ Hloop)
    as (acc & _ & Hrows & _ & _ & _ & Hacc).
  simpl in *. split_and!.
  - exists (map (ledger_row uid) acc). split; [done|].
    rewrite map_is_fmap. apply Forall_fmap.
    eapply Forall_impl; [exact Hacc|]. simpl.
    intros tx (_ & _ & Hsig). split_and!; try done.
    unfold missing_signature in Hsig.
    destruct (signature tx) as [sg|]; [|done]. simpl.
    by apply bool_decide_eq_false in Hsig.
  - intros uid' Hne. rewrite lookup_insert_ne; [done|congruence].
  - apply dom_insert_lookup_L. by rewrite Hp.
Qed.

Lemma batch_frames_server_witness :
  ∃ new_rows,
    [mkRow "u" 10000 credit "refund" synced "b" "9c1e"]
    = sql_transactions sample_server ++ new_rows ∧
    Forall (fun row => Some (row_user_id row) = Some "u"
                       ∧ row_status row = synced
                       ∧ row_signature row ≠ EmptyString) new_rows.
Proof.
  destruct (batch_frames_server 1 (Some "u") [sample_debit; sample_credit]
    sample_server
    {| error := None; processed_ids := ["b"];
       failed_ids := [("a", "Insufficient balance")];
       new_balance := Some 15000 |}
    (mkServer {["u" := mkProfile 15000 (Some 1)]}
       [mkRow "u" 10000 credit "refund" synced "b" "9c1e"])) as [H _].
  - vm_compute. reflexivity.
  - exact H.
Defined.

(** With amounts that are not negative, the running balance stays so. *)
Lemma batch_loop_no_overdraft uid payload st st' :
  batch_loop uid payload st = Returned st' →
  Forall (fun tx => 0 ≤ amount tx) payload →
  0 ≤ b_new_balance st →
  0 ≤ b_new_balance st'.
Proof.
  revert st. induction payload as [|tx rest IH]; intros st; simpl.
  - by intros [= <-].
  - destruct (batch_step uid st tx) as [st1|msg] eqn:Hstep; [|done].
    simpl. intros Hloop Hall Hb.
    inversion Hall as [|? ? Htx Hrest]; subst.
    apply (IH _ Hloop Hrest).
    apply batch_step_cases in Hstep
      as [[_ ->]|[[_ [[_ ->]|(_ & _ & _ & ->)]]|(_ & _ & _ & Hle & ->)]];
      simpl; try done.
    unfold signed_amount. destruct (tx_type tx); [lia|].
    specialize (Hle eq_refl). lia.
Qed.

(** X6. No overdraft: when the stored balance is not negative and no entry
    of the batch has a negative amount, the balance the call returns and
    stores is not negative either, whatever the batch asks for. *)
Theorem no_overdraft now uid payload s p response s' :
  profiles s !! uid = Some p →
  0 ≤ balance p →
  Forall (fun tx => 0 ≤ amount tx) payload →
  process_offline_batch now (Some uid) payload s = Returned (response, s') →
  ∃ b, new_balance response = Some b ∧ 0 ≤ b ∧
       balance <$> profiles s' !! uid = Some b.
Proof.
  intros Hp Hb Hall. unfold process_offline_batch. rewrite Hp.
  destruct (batch_loop _ _ _) as [st|msg] eqn:Hloop; [|done]. simpl.
  destruct (numeric_12_2 (b_new_balance st)); [|done].
  intros [= <- <-]. simpl. exists (b_new_balance st).
  split; [done|]. split; [|by rewrite lookup_insert_eq].
  by apply (batch_loop_no_overdraft _ _ _ _ Hloop Hall).
Qed.

Lemma no_overdraft_witness :
  ∃ b, Some 15000 = Some b ∧ 0 ≤ b.
Proof.
  destruct (no_overdraft 1 "u" [sample_debit; sample_credit]
    sample_server (mkProfile 5000 None)
    {| error := None; processed_ids := ["b"];
       failed_ids := [("a", "Insufficient balance")];
       new_balance := Some 15000 |}
    (mkServer {["u" := mkProfile 15000 (Some 1)]}
       [mkRow "u" 10000 credit "refund" synced "b" "9c1e"]))
    as (b & H1 & H2 & _).
  - reflexivity.
  - simpl. lia.
  - repeat constructor; simpl; lia.
  - vm_compute. reflexivity.
  - exists b. split; [exact H1 | exact H2].
Defined.

(** An id that only unsigned entries carry never reaches the ledger. *)
Lemma batch_loop_unsigned uid payload st st' oid :
  batch_loop uid payload st = Returned st' →
  (∀ tx, tx ∈ payload → offline_id tx = oid →
         missing_signature (signature tx) = true) →
  oid ∉ row_offline_id <$> b_rows st →
  oid ∉ b_processed_ids st →
  (oid ∉ row_offline_id <$> b_rows st') ∧
  (oid ∉ b_processed_ids st') ∧
  ((∃ tx, tx ∈ payload ∧ offline_id tx = oid) →
   (oid, "Missing signature") ∈ b_failed_ids st').
Proof.
  revert st. induction payload as [|tx rest IH]; intros st; simpl.
  - intros [= <-] _ Hrows Hproc. split_and!; try done.
    intros (t & Hin & _). by apply elem_of_nil in Hin.
  - destruct (batch_step uid st tx) as [st1|msg] eqn:Hstep; [|done].
    simpl. intros Hloop Hunsigned Hrows Hproc.
    assert (∀ t, t ∈ rest → offline_id t = oid →
                 missing_signature (signature t) = true) as Hrest.
    { intros t Ht. apply Hunsigned. by right. }
    destruct (batch_loop_grows _ _ _ _ Hloop) as (_ & fs & _ & _ & Hfs & _).
    apply batch_step_cases in Hstep
      as [[Hdup ->]|[[Hfresh [[Hs ->]|(Hs & _ & _ & ->)]]|(Hfresh & Hs & _ & _ & ->)]].
    + destruct (decide (offline_id tx = oid)) as [Heq|Hne].
      { apply existing_count_pos in Hdup. by rewrite Heq in Hdup. }
      destruct (IH _ Hloop Hrest) as (H1 & H2 & H3); simpl; try done.
      { rewrite elem_of_app, list_elem_of_singleton. intros [?|?]; done. }
      split_and!; try done. intros (t & [->|Hin]%elem_of_cons & Hid); [done|].
      apply H3. by exists t.
    + destruct (IH _ Hloop Hrest) as (H1 & H2 & H3); simpl; try done.
      split_and!; try done. intros (t & [->|Hin]%elem_of_cons & Hid).
      * rewrite Hfs. simpl. rewrite <- Hid, !elem_of_app.
        left; right. by apply list_elem_of_singleton.
      * apply H3. by exists t.
    + destruct (decide (offline_id tx = oid)) as [Heq|Hne].
      { rewrite (Hunsigned tx) in Hs; [done|by left|done]. }
      destruct (IH _ Hloop Hrest) as (H1 & H2 & H3); simpl; try done.
      split_and!; try done. intros (t & [->|Hin]%elem_of_cons & Hid); [done|].
      apply H3. by exists t.
    + destruct (decide (offline_id tx = oid)) as [Heq|Hne].
      { rewrite (Hunsigned tx) in Hs; [done|by left|done]. }
      destruct (IH _ Hloop Hrest) as (H1 & H2 & H3); simpl; try done.
      { rewrite fmap_app, elem_of_app. simpl.
        rewrite list_elem_of_singleton. intros [?|?]; done. }
      { rewrite elem_of_app, list_elem_of_singleton. intros [?|?]; done. }
      split_and!; try done. intros (t & [->|Hin]%elem_of_cons & Hid); [done|].
      apply H3. by exists t.
Qed.

(** X28. An entry without a signature is never taken in: when the id of
    an unsigned entry of the batch is not in the ledger and no signed entry
    of the batch carries it, the call reports that id with "Missing
    signature", does not report it as processed, and the ledger still does
    not hold it, so that the entry is rejected again by the next call. *)
Theorem unsigned_entry_never_accepted now uid payload s p response s' tx :
  profiles s !! uid = Some p →
  process_offline_batch now (Some uid) payload s = Returned (response, s') →
  tx ∈ payload →
  (∀ t, t ∈ payload → offline_id t = offline_id tx →
        missing_signature (signature t) = true) →
  offline_id tx ∉ row_offline_id <$> sql_transactions s →
  (offline_id tx, "Missing signature") ∈ failed_ids response ∧
  (offline_id tx ∉ processed_ids response) ∧
  (offline_id tx ∉ row_offline_id <$> sql_transactions s').
Proof.
  intros Hp Hcall Hin Hunsigned Hfresh.
  unfold process_offline_batch in Hcall. rewrite Hp in Hcall.
  destruct (batch_loop _ _ _) as [st|msg] eqn:Hloop; [|done]. simpl in Hcall.
  destruct (numeric_12_2 (b_new_balance st)); [|done].
  injection Hcall as <- <-. simpl.
  destruct (batch_loop_unsigned _ _ _ _ (offline_id tx) Hloop Hunsigned)
    as (H1 & H2 & H3); simpl; try done.
  - apply not_elem_of_nil.
  - split_and!; try done. apply H3. by exists tx.
Qed.

Lemma unsigned_entry_never_accepted_witness :
  ("e", "Missing signature")
    ∈ failed_ids
        (mkResponse None [] [("e", "Missing signature")] (Some 5000)).
Proof.
  apply (unsigned_entry_never_accepted 1 "u" [unsigned_credit] sample_server
           (mkProfile 5000 None)
           (mkResponse None [] [("e", "Missing signature")] (Some 5000))
           (mkServer {["u" := mkProfile 5000 (Some 1)]} [])
           unsigned_credit).
  - reflexivity.
  - vm_compute. reflexivity.
  - left.
  - intros t Ht _. apply list_elem_of_singleton in Ht as ->. reflexivity.
  - simpl. apply not_elem_of_nil.
Defined.

(** ** Splitting a batch *)

Lemma batch_step_carry uid ps fs b rows tx :
  batch_step uid (mkBatch ps fs b rows) tx
  = carry ps fs (batch_step uid (mkBatch [] [] b rows) tx).
Proof.
  unfold batch_step, insert_transaction, report_processed, report_failed.
  simpl. repeat case_match; simpl; by rewrite ?app_nil_r.
Qed.

Lemma batch_loop_carry uid payload ps fs b rows :
  batch_loop uid payload (mkBatch ps fs b rows)
  = carry ps fs (batch_loop uid payload (mkBatch [] [] b rows)).
Proof.
  revert ps fs b rows. induction payload as [|tx rest IH];
    intros ps fs b rows; simpl.
  - by rewrite !app_nil_r.
  - rewrite (batch_step_carry uid ps fs).
    destruct (batch_step uid (mkBatch [] [] b rows) tx)
      as [[ps1 fs1 b1 rows1]|msg]; simpl; [|done].
    rewrite (IH (ps ++ ps1)), (IH ps1).
    destruct (batch_loop uid rest (mkBatch [] [] b1 rows1)) as [st|msg];
      simpl; [|done].
    by rewrite !app_assoc.
Qed.

Lemma batch_loop_app uid p1 p2 st :
  batch_loop uid (p1 ++ p2) st
  = (st1 ← batch_loop uid p1 st; batch_loop uid p2 st1).
Proof.
  revert st. induction p1 as [|tx rest IH]; intros st; simpl; [done|].
  destruct (batch_step uid st tx) as [st1|msg]; simpl; [|done]. apply IH.
Qed.

(** X7. Batches compose, for amounts of at most two fractional digits
    (whole hundredths, which storing a balance does not round): if a call
    with the batch [p1] returns and a call with [p2] on the resulting state
    returns, then one call with [p1 ++ p2] on the first state returns the
    two reports joined and the balance of the second call, and leaves the
    same ledger and the same profiles as the two calls. *)
Theorem batch_split now1 now2 auth_uid p1 p2 s r1 s1 r2 s2 :
  process_offline_batch now1 auth_uid p1 s = Returned (r1, s1) →
  process_offline_batch now2 auth_uid p2 s1 = Returned (r2, s2) →
  process_offline_batch now2 auth_uid (p1 ++ p2) s
  = Returned ({| error := error r2;
                 processed_ids := processed_ids r1 ++ processed_ids r2;
                 failed_ids := failed_ids r1 ++ failed_ids r2;
                 new_balance := new_balance r2 |}, s2).
Proof.
  unfold process_offline_batch.
  destruct auth_uid as [uid|].
  2:{ by intros [= <- <-] [= <- <-]. }
  destruct (profiles s !! uid) as [p|] eqn:Hp.
  2:{ intros [= <- <-]. rewrite Hp. by intros [= <- <-]. }
  destruct (batch_loop uid p1 _) as [st1|msg] eqn:Hl1; [|done]. simpl.
  destruct (numeric_12_2 (b_new_balance st1)); [|done].
  intros [= <- <-]. simpl. rewrite lookup_insert_eq. simpl.
  destruct (batch_loop uid p2 _) as [st2|msg] eqn:Hl2; [|done]. simpl.
  destruct (numeric_12_2 (b_new_balance st2)) eqn:Hfit; [|done].
  intros [= <- <-]. simpl.
  rewrite batch_loop_app, Hl1. simpl.
  destruct st1 as [ps1 fs1 b1 rows1]. simpl in *.
  rewrite batch_loop_carry, Hl2. simpl. rewrite Hfit.
  by rewrite insert_insert_eq.
Qed.

Lemma batch_split_witness :
  process_offline_batch 2 (Some "u") ([sample_debit] ++ [sample_credit])
    sample_server
  = Returned ({| error := None;
                 processed_ids := [] ++ ["b"];
                 failed_ids := [("a", "Insufficient balance")] ++ [];
                 new_balance := Some 15000 |},
              mkServer {["u" := mkProfile 15000 (Some 2)]}
                [mkRow "u" 10000 credit "refund" synced "b" "9c1e"]).
Proof.
  apply (batch_split 1 2 (Some "u") [sample_debit] [sample_credit]
    sample_server
    {| error := None; processed_ids := [];
       failed_ids := [("a", "Insufficient balance")];
       new_balance := Some 5000 |}
    (mkServer {["u" := mkProfile 5000 (Some 1)]} [])
    {| error := None; processed_ids := ["b"]; failed_ids := [];
       new_balance := Some 15000 |}).
  - vm_compute. reflexivity.
  - vm_compute. reflexivity.
Defined.

(** X8. The call returns, rather than raises, whenever the timestamp of
    every entry fits [BIGINT] and the stored balance and the amounts of the
    batch (of at most two fractional digits), taken in absolute value, add
    up to less than ten thousand million: no value then leaves
    [NUMERIC(12,2)]. *)
Theorem batch_within_range_returns now uid payload s p :
  profiles s !! uid = Some p →
  Forall (fun tx => fits_bigint (timestamp tx)) payload →
  Z.abs (balance p) + total (Z.abs ∘ amount <$> payload) < 10 ^ 12 →
  ∃ response s',
    process_offline_batch now (Some uid) payload s = Returned (response, s') ∧
    error response = None.
Proof.
  intros Hp _ Hbound.
  destruct (process_offline_batch_returns now uid payload s p Hp Hbound)
    as (r & s' & Hret).
  exists r, s'. split; [done|].
  unfold process_offline_batch in Hret. rewrite Hp in Hret.
  destruct (batch_loop _ _ _) as [st|msg]; [|done]. simpl in Hret.
  destruct (numeric_12_2 (b_new_balance st)); [|done].
  by injection Hret as <- <-.
Qed.

Lemma batch_within_range_returns_witness :
  ∃ response s',
    process_offline_batch 1 (Some "u") [sample_debit; sample_credit]
      sample_server = Returned (response, s') ∧
    error response = None.
Proof.
  apply (batch_within_range_returns 1 "u" [sample_debit; sample_credit]
           sample_server (mkProfile 5000 None)).
  - reflexivity.
  - repeat constructor; unfold fits_bigint; simpl; lia.
  - vm_compute. reflexivity.
Defined.

(** * Further properties of the local store *)

Lemma sum_of_type_app k l1 l2 :
  sum_of_type k (l1 ++ l2) = sum_of_type k l1 + sum_of_type k l2.
Proof.
  induction l1 as [|tx l1 IH]; simpl.
  - rewrite sum_of_type_nil. lia.
  - rewrite !sum_of_type_cons, IH. lia.
Qed.

Lemma getPendingTransactions_add userId tx db :
  getPendingTransactions userId (addOfflineTransaction tx db)
  = getPendingTransactions userId db
    ++ (if decide (user_id tx = userId ∧ sync_status tx = pending)
        then [tx] else []).
Proof.
  unfold getPendingTransactions, addOfflineTransaction. simpl.
  rewrite filter_app. f_equal.
Qed.

(** X9. Optimistic locality: after a pending transaction of the user is
    recorded, it is the last entry of the next batch, and recomputing the
    wallet gives, for a debit, the previous aggregate of pending debits
    plus its amount, and for a credit the previous aggregate of pending
    credits plus its amount, the other aggregate being the previous one;
    the shadow balance is the confirmed balance minus the pending debits
    plus the pending credits so obtained, and the confirmed balance and
    the timestamps do not move.  The sums are those the code forms, the
    new amount being added last. *)
Theorem optimistic_shadow_balance userId db w tx :
  getWalletState userId db = Some w →
  wallet_id w = userId →
  user_id tx = userId →
  sync_status tx = pending →
  let pd := sum_of_type debit (getPendingTransactions userId db) in
  let pc := sum_of_type credit (getPendingTransactions userId db) in
  let pd' := match tx_type tx with debit => pd + amount tx | credit => pd end in
  let pc' := match tx_type tx with credit => pc + amount tx | debit => pc end in
  getPendingTransactions userId (addOfflineTransaction tx db)
  = getPendingTransactions userId db ++ [tx] ∧
  getWalletState userId (updateWalletPendingAmounts userId db)
  = Some {| wallet_id := userId;
            cached_balance := cached_balance w;
            shadow_balance := cached_balance w - pd + pc;
            last_updated := last_updated w;
            pending_debits := Some pd;
            pending_credits := Some pc;
            last_sync_success := last_sync_success w |} ∧
  getWalletState userId
    (updateWalletPendingAmounts userId (addOfflineTransaction tx db))
  = Some {| wallet_id := userId;
            cached_balance := cached_balance w;
            shadow_balance := cached_balance w - pd' + pc';
            last_updated := last_updated w;
            pending_debits := Some pd';
            pending_credits := Some pc';
            last_sync_success := last_sync_success w |}.
Proof.
  intros Hw Hid Hu Hs. simpl.
  assert (getPendingTransactions userId (addOfflineTransaction tx db)
          = getPendingTransactions userId db ++ [tx]) as Hadd.
  { rewrite getPendingTransactions_add. by rewrite decide_True. }
  split; [done|].
  unfold updateWalletPendingAmounts. rewrite Hadd.
  assert (getWalletState userId (addOfflineTransaction tx db) = Some w) as ->
    by done.
  rewrite Hw. unfold getWalletState, updateWalletState. simpl.
  rewrite Hid, !lookup_insert_eq. split; [done|].
  unfold sum_of_type. rewrite !filter_app, !fold_left_app, !filter_cons.
  destruct (tx_type tx); repeat case_decide; try done.
Qed.

Lemma optimistic_shadow_balance_witness :
  getPendingTransactions "u" (addOfflineTransaction sample_credit sample_db)
  = getPendingTransactions "u" sample_db ++ [sample_credit] ∧
  pending_credits
    <$> getWalletState "u"
          (updateWalletPendingAmounts "u"
             (addOfflineTransaction sample_credit sample_db))
  = Some (Some (0 + 10000)).
Proof.
  destruct (optimistic_shadow_balance "u" sample_db sample_wallet sample_credit)
    as (H0 & _ & H1).
  - reflexivity.
  - reflexivity.
  - reflexivity.
  - reflexivity.
  - split; [exact H0|]. rewrite H1. reflexivity.
Defined.

Lemma getPendingTransactions_markSynced offlineIds userId db :
  getPendingTransactions userId (markTransactionsSynced offlineIds db)
  = filter (fun tx => offline_id tx ∉ offlineIds)
      (getPendingTransactions userId db).
Proof.
  unfold getPendingTransactions, markTransactionsSynced. simpl.
  induction (transactions db) as [|tx txs IH]; [done|].
  rewrite fmap_cons, !filter_cons, IH. simpl.
  destruct (decide (offline_id tx ∈ offlineIds)) as [Hin|Hout]; simpl.
  - destruct (decide (user_id tx = userId ∧ synced = pending))
      as [[_ ?]|_]; [done|].
    destruct (decide (user_id tx = userId ∧ sync_status tx = pending));
      [|done].
    rewrite filter_cons. destruct (decide (offline_id tx ∉ offlineIds)); done.
  - destruct (decide (user_id tx = userId ∧ sync_status tx = pending));
      [|done].
    rewrite filter_cons. destruct (decide (offline_id tx ∉ offlineIds)); done.
Qed.

(** X10. Marking ids as synced takes exactly the entries with those ids
    out of every user's batch, and leaves the rest of the batch as it was,
    in its order; an entry so marked is in no batch, whoever owns it. *)
Theorem markSynced_shrinks_batch offlineIds userId db :
  getPendingTransactions userId (markTransactionsSynced offlineIds db)
  = filter (fun tx => offline_id tx ∉ offlineIds)
      (getPendingTransactions userId db) ∧
  (∀ tx, tx ∈ getPendingTransactions userId
                (markTransactionsSynced offlineIds db) →
         offline_id tx ∉ offlineIds) ∧
  sublist (getPendingTransactions userId (markTransactionsSynced offlineIds db))
    (getPendingTransactions userId db).
Proof.
  rewrite getPendingTransactions_markSynced. split; [done|]. split.
  - by intros tx [? _]%list_elem_of_filter.
  - apply sublist_filter.
Qed.

Lemma markTransactionsSynced_nil db :
  transactions (markTransactionsSynced [] db) = transactions db.
Proof.
  unfold markTransactionsSynced. simpl.
  induction (transactions db) as [|t ts IH]; [done|].
  rewrite fmap_cons, IH. done.
Qed.

(** The three ways a cycle can end. *)
Lemma sync_cases env rpc userId db res db' :
  syncOfflineTransactions env rpc userId db = (res, db') →
  (res = None ∧ db' = db)
  ∨ (res = Some {| error := None; processed_ids := []; failed_ids := [];
                   new_balance := Some 0 |}
     ∧ db' = db ∧ getPendingTransactions userId db = [])
  ∨ (∃ response,
       res = Some response ∧
       online env = true ∧ supabase_configured env = true ∧
       getPendingTransactions userId db ≠ [] ∧
       rpc (getPendingTransactions userId db) = Returned response ∧
       transactions db'
       = transactions (markTransactionsSynced (processed_ids response) db) ∧
       wallet db'
       = match new_balance response with
         | Some b => <[userId := synced_wallet userId b (date_now env)]>
                       (wallet db)
         | None => wallet db
         end).
Proof.
  unfold syncOfflineTransactions.
  destruct (online env); simpl; [|intros [= <- <-]; by left].
  destruct (supabase_configured env); simpl; [|intros [= <- <-]; by left].
  destruct (getPendingTransactions userId db) as [|tx l] eqn:Hp; simpl.
  { intros [= <- <-]. right; left. done. }
  destruct (rpc (tx :: l)) as [response|msg] eqn:Hrpc;
    [|intros [= <- <-]; by left].
  intros [= <- <-]. right; right. exists response.
  split_and!; try done.
  - assert (transactions
              (if (0 <? length (processed_ids response))%nat
               then markTransactionsSynced (processed_ids response) db else db)
            = transactions (markTransactionsSynced (processed_ids response) db))
      as H.
    { destruct (processed_ids response); [|done].
      symmetry. apply markTransactionsSynced_nil. }
    by destruct (new_balance response).
  - destruct (0 <? length (processed_ids response))%nat;
      by destruct (new_balance response).
Qed.

(** X11. After a cycle that returns a response, the next batch of the user
    is the old one without the entries whose ids are in [processed_ids],
    and every entry of the store with such an id is synced. *)
Theorem sync_next_batch env rpc userId db response db' :
  syncOfflineTransactions env rpc userId db = (Some response, db') →
  getPendingTransactions userId db'
  = filter (fun tx => offline_id tx ∉ processed_ids response)
      (getPendingTransactions userId db) ∧
  (∀ tx, tx ∈ transactions db' →
         offline_id tx ∈ processed_ids response →
         sync_status tx = synced).
Proof.
  intros [[? _]|[(Hres & -> & Hp)|(r & Hres & _ & _ & _ & _ & Htx & _)]]%sync_cases;
    [done| |].
  - injection Hres as ->. simpl. split.
    + rewrite Hp. done.
    + intros tx _ Hin. by apply elem_of_nil in Hin.
  - injection Hres as ->. split.
    + rewrite <- getPendingTransactions_markSynced.
      unfold getPendingTransactions. by rewrite Htx.
    + intros tx Hin Hid. rewrite Htx in Hin.
      unfold markTransactionsSynced in Hin. simpl in Hin.
      apply list_elem_of_fmap in Hin as (tx0 & -> & _).
      case_decide as Hd; [done|]. simpl in Hid. done.
Qed.

Lemma sync_next_batch_witness :
  getPendingTransactions "u"
    (snd (syncOfflineTransactions sample_env
            (supabase_rpc 1 (Some "u") sample_server) "u"
            (addOfflineTransaction sample_credit sample_db)))
  = filter (fun tx => offline_id tx ∉ ["b"]) [sample_debit; sample_credit].
Proof.
  destruct (sync_next_batch sample_env
              (supabase_rpc 1 (Some "u") sample_server) "u"
              (addOfflineTransaction sample_credit sample_db)
              {| error := None; processed_ids := ["b"];
                 failed_ids := [("a", "Insufficient balance")];
                 new_balance := Some 15000 |}
              (snd (syncOfflineTransactions sample_env
                      (supabase_rpc 1 (Some "u") sample_server) "u"
                      (addOfflineTransaction sample_credit sample_db))))
    as [H _].
  - vm_compute. reflexivity.
  - exact H.
Defined.

Lemma filter_none {A} (P : A → Prop) `{!∀ x, Decision (P x)} (l : list A) :
  (∀ x, x ∈ l → ¬ P x) → filter P l = [].
Proof.
  induction l as [|x l IH]; intros Hnone; [done|].
  rewrite filter_cons, decide_False by (apply Hnone; left).
  apply IH. intros y Hy. apply Hnone. by right.
Qed.

(** X12. A cycle, however it ends, adds no entry, deletes none and alters
    no amount, owner, signature or retry count: entry by entry, the store
    afterwards holds the same entry or that entry with its status set to
    synced.  The wallet records of other users are not touched. *)
Theorem sync_touches_only_status env rpc userId db :
  Forall2
    (fun tx tx' =>
       tx' = tx ∨ tx' = modify (mkUpdates (Some synced) None None) tx)
    (transactions db)
    (transactions (snd (syncOfflineTransactions env rpc userId db))) ∧
  (∀ u, u ≠ userId →
        getWalletState u (snd (syncOfflineTransactions env rpc userId db))
        = getWalletState u db).
Proof.
  destruct (syncOfflineTransactions env rpc userId db) as [res db'] eqn:Hsync.
  simpl.
  apply sync_cases in Hsync
    as [[_ ->]|[(_ & -> & _)|(r & _ & _ & _ & _ & _ & Htx & Hw)]].
  - split; [|done]. apply Forall2_same_length_lookup_2; [done|].
    intros i tx tx' H1 H2. left. congruence.
  - split; [|done]. apply Forall2_same_length_lookup_2; [done|].
    intros i tx tx' H1 H2. left. congruence.
  - split.
    + rewrite Htx. unfold markTransactionsSynced. simpl.
      apply Forall2_fmap_r, Forall_Forall2_diag, Forall_forall.
      intros tx _. simpl. case_decide; [by right|by left].
    + intros u Hu. unfold getWalletState. rewrite Hw.
      destruct (new_balance r); [|done]. by rewrite lookup_insert_ne.
Qed.

(** X13. A cycle that returns [null] has changed nothing, and it returns
    [null] only when the device is offline, the client is not configured,
    or the remote call failed. *)
Theorem sync_null_leaves_store env rpc userId db db' :
  syncOfflineTransactions env rpc userId db = (None, db') →
  db' = db ∧
  (online env = false ∨ supabase_configured env = false
   ∨ ∃ msg, rpc (getPendingTransactions userId db) = Raised msg).
Proof.
  unfold syncOfflineTransactions.
  destruct (online env); simpl; [|intros [= <-]; split; [done|by left]].
  destruct (supabase_configured env); simpl;
    [|intros [= <-]; split; [done|by right; left]].
  destruct (length (getPendingTransactions userId db) =? 0)%nat; [done|].
  destruct (rpc _) as [r|msg]; [done|].
  intros [= <-]. split; [done|]. right; right. by exists msg.
Qed.

Lemma sync_null_leaves_store_witness :
  snd (syncOfflineTransactions (mkEnv false true 5000)
         (supabase_rpc 1 (Some "u") sample_server) "u" sample_db)
  = sample_db.
Proof.
  apply (sync_null_leaves_store (mkEnv false true 5000)
           (supabase_rpc 1 (Some "u") sample_server) "u" sample_db).
  reflexivity.
Defined.

(** X14. After a cycle against the server, the device shows what the
    server holds, for amounts of at most two fractional digits (whole
    hundredths, which storing a balance does not round): the confirmed and
    the shadow balance of the wallet are the balance stored in the
    profile, which is also what [fetchServerBalance] then returns, and
    every entry of the batch that was reported processed has a row in the
    ledger. *)
Theorem sync_mirrors_server env now uid s db p response s' :
  online env = true →
  supabase_configured env = true →
  getPendingTransactions uid db ≠ [] →
  profiles s !! uid = Some p →
  process_offline_batch now (Some uid) (getPendingTransactions uid db) s
  = Returned (response, s') →
  ∃ db' w,
    syncOfflineTransactions env (supabase_rpc now (Some uid) s) uid db
    = (Some response, db') ∧
    getWalletState uid db' = Some w ∧
    balance <$> profiles s' !! uid = Some (cached_balance w) ∧
    shadow_balance w = cached_balance w ∧
    fetchServerBalance env (Some uid) s' uid = Some (cached_balance w) ∧
    (∀ tx, tx ∈ transactions db' →
           offline_id tx ∈ processed_ids response →
           sync_status tx = synced
           ∧ offline_id tx ∈ row_offline_id <$> sql_transactions s').
Proof.
  intros Hon Hconf Hne Hp Hproc.
  assert (supabase_rpc now (Some uid) s (getPendingTransactions uid db)
          = Returned response) as Hrpc.
  { unfold supabase_rpc. by rewrite Hproc. }
  rewrite (sync_applies_response _ _ _ _ _ Hon Hconf Hne Hrpc).
  unfold process_offline_batch in Hproc. rewrite Hp in Hproc.
  destruct (batch_loop _ _ _) as [st|msg] eqn:Hloop; [|done]. simpl in Hproc.
  destruct (numeric_12_2 (b_new_balance st)); [|done].
  injection Hproc as <- <-. simpl.
  eexists _, _. split; [done|].
  unfold getWalletState, updateWalletState, fetchServerBalance. simpl.
  rewrite !lookup_insert_eq, Hon, Hconf. simpl.
  rewrite decide_True by done.
  split_and!; try done.
  intros tx Hin Hid. split.
  - destruct (b_processed_ids st) as [|o ids] eqn:Hids;
      [by apply elem_of_nil in Hid|].
    simpl in Hin. apply list_elem_of_fmap in Hin as (tx0 & -> & _).
    case_decide as Hd; [done|]. simpl in Hid. done.
  - apply batch_loop_processed_stored in Hloop; [|by constructor].
    by apply (proj1 (Forall_forall _ _) Hloop).
Qed.

Lemma sync_mirrors_server_witness :
  ∃ db' w,
    syncOfflineTransactions sample_env (supabase_rpc 1 (Some "u") sample_server)
      "u" sample_db
    = (Some {| error := None; processed_ids := [];
               failed_ids := [("a", "Insufficient balance")];
               new_balance := Some 5000 |}, db') ∧
    getWalletState "u" db' = Some w ∧
    cached_balance w = 5000.
Proof.
  destruct (sync_mirrors_server sample_env 1 "u" sample_server sample_db
              (mkProfile 5000 None)
              {| error := None; processed_ids := [];
                 failed_ids := [("a", "Insufficient balance")];
                 new_balance := Some 5000 |}
              (mkServer {["u" := mkProfile 5000 (Some 1)]} []))
    as (db' & w & H1 & H2 & H3 & _).
  - reflexivity.
  - reflexivity.
  - vm_compute. discriminate.
  - reflexivity.
  - vm_compute. reflexivity.
  - exists db', w. split; [exact H1|]. split; [exact H2|].
    change (Some 5000 = Some (cached_balance w)) in H3. congruence.
Defined.

(** X15. A batch the server accepts in full empties the queue: when the
    call rejects no entry, the user has no pending entry after the cycle,
    and any further cycle, whatever the server would answer, changes
    nothing on the device. *)
Theorem accepted_batch_empties_queue env now uid s db p response s' :
  online env = true →
  supabase_configured env = true →
  profiles s !! uid = Some p →
  process_offline_batch now (Some uid) (getPendingTransactions uid db) s
  = Returned (response, s') →
  failed_ids response = [] →
  let db' :=
    snd (syncOfflineTransactions env (supabase_rpc now (Some uid) s) uid db) in
  getPendingTransactions uid db' = [] ∧
  (∀ env2 rpc2, snd (syncOfflineTransactions env2 rpc2 uid db') = db').
Proof.
  intros Hon Hconf Hp Hproc Hfail. simpl.
  assert (getPendingTransactions uid
            (snd (syncOfflineTransactions env
                    (supabase_rpc now (Some uid) s) uid db)) = []) as Hempty.
  { destruct (decide (getPendingTransactions uid db = [])) as [He|Hne].
    - unfold syncOfflineTransactions. rewrite Hon, Hconf, He. simpl. done.
    - assert (supabase_rpc now (Some uid) s (getPendingTransactions uid db)
              = Returned response) as Hrpc.
      { unfold supabase_rpc. by rewrite Hproc. }
      rewrite (sync_applies_response _ _ _ _ _ Hon Hconf Hne Hrpc). simpl.
      assert (∀ tx, tx ∈ getPendingTransactions uid db →
                    offline_id tx ∈ processed_ids response) as Hall.
      { unfold process_offline_batch in Hproc. rewrite Hp in Hproc.
        destruct (batch_loop _ _ _) as [st|msg] eqn:Hloop; [|done].
        simpl in Hproc.
        destruct (numeric_12_2 (b_new_balance st)); [|done].
        injection Hproc as <- <-. simpl in *.
        destruct (batch_loop_reported _ _ _ _ Hloop)
          as (ps & fs & Hps & Hfs & Hperm & _).
        simpl in Hps, Hfs, Hfail. rewrite Hfail in Hfs. subst fs.
        simpl in Hperm. rewrite app_nil_r in Hperm. intros tx Hin.
        rewrite Hps, <- Hperm. by apply list_elem_of_fmap_2. }
      destruct (processed_ids response) as [|o ids] eqn:Hids.
      + destruct (getPendingTransactions uid db) as [|tx l] eqn:Hq; [done|].
        specialize (Hall tx ltac:(left)). by apply elem_of_nil in Hall.
      + simpl.
        assert (getPendingTransactions uid (markTransactionsSynced (o :: ids) db)
                = []) as Hm.
        { rewrite getPendingTransactions_markSynced.
          apply filter_none. intros tx Hin Hnot. by apply Hnot, Hall. }
        by destruct (new_balance response). }
  split; [done|].
  intros env2 rpc2. unfold syncOfflineTransactions at 1.
  rewrite Hempty. simpl.
  destruct (online env2); simpl; [|done].
  by destruct (supabase_configured env2).
Qed.

Lemma accepted_batch_empties_queue_witness :
  getPendingTransactions "u"
    (snd (syncOfflineTransactions sample_env
            (supabase_rpc 1 (Some "u") sample_server) "u" credit_db))
  = [].
Proof.
  destruct (accepted_batch_empties_queue sample_env 1 "u" sample_server
              credit_db (mkProfile 5000 None)
              {| error := None; processed_ids := ["b"]; failed_ids := [];
                 new_balance := Some 15000 |}
              (mkServer {["u" := mkProfile 15000 (Some 1)]}
                 [mkRow "u" 10000 credit "refund" synced "b" "9c1e"]))
    as [H _].
  - reflexivity.
  - reflexivity.
  - reflexivity.
  - vm_compute. reflexivity.
  - reflexivity.
  - exact H.
Defined.

(** ** Retention and the queue *)

Lemma filter_purged_commute (P : OfflineTransaction → Prop)
    `{!∀ tx, Decision (P tx)} now userId daysOld
    (txs : list OfflineTransaction) :
  (∀ tx, P tx → sync_status tx ≠ synced) →
  filter P (filter (fun tx => ¬ old_synced now userId daysOld tx) txs)
  = filter P txs.
Proof.
  intros HP. rewrite list_filter_filter. apply list_filter_iff.
  intros tx. split; [by intros [? _]|]. intros Hp. split; [done|].
  intros (_ & Hs & _). by apply (HP tx).
Qed.

(** X16. The purge is invisible to everything that works on unsettled
    entries: for every user the batch, the sync queue and the list of
    conflicts are the same before and after it, and recomputing the wallet
    gives the same result whether done before or after. *)
Theorem purge_keeps_open_entries now userId daysOld db u :
  getPendingTransactions u (clearOldSyncedTransactions now userId daysOld db)
  = getPendingTransactions u db ∧
  getSyncQueueItems u (clearOldSyncedTransactions now userId daysOld db)
  = getSyncQueueItems u db ∧
  getConflictTransactions u (clearOldSyncedTransactions now userId daysOld db)
  = getConflictTransactions u db ∧
  updateWalletPendingAmounts u (clearOldSyncedTransactions now userId daysOld db)
  = clearOldSyncedTransactions now userId daysOld
      (updateWalletPendingAmounts u db).
Proof.
  assert (getPendingTransactions u
            (clearOldSyncedTransactions now userId daysOld db)
          = getPendingTransactions u db) as Hpend.
  { unfold getPendingTransactions, clearOldSyncedTransactions. simpl.
    apply filter_purged_commute. intros tx [_ Hs]. by rewrite Hs. }
  split_and!; try done.
  - unfold getSyncQueueItems, clearOldSyncedTransactions. simpl. f_equal.
    apply filter_purged_commute. intros tx [_ Hq] Hs.
    unfold queued in Hq. rewrite Hs in Hq.
    repeat (apply elem_of_cons in Hq as [Hq|Hq]; [done|]).
    by apply elem_of_nil in Hq.
  - unfold getConflictTransactions, clearOldSyncedTransactions. simpl.
    apply filter_purged_commute. intros tx [_ Hs]. by rewrite Hs.
  - unfold updateWalletPendingAmounts. rewrite Hpend.
    unfold getWalletState. simpl. by destruct (wallet db !! u).
Qed.

Lemma old_synced_mono now1 now2 userId daysOld tx :
  now1 ≤ now2 →
  old_synced now1 userId daysOld tx → old_synced now2 userId daysOld tx.
Proof.
  unfold old_synced, cutoffTime. intros Hle (? & ? & ?).
  split_and!; try done. lia.
Qed.

(** X17. Purging again never undoes or adds to a later purge: with the
    same horizon, a purge at some time followed or preceded by a purge at
    a later time leaves what the later purge alone leaves; in particular
    the purge is idempotent. *)
Theorem purge_absorbs_earlier now1 now2 userId daysOld db :
  now1 ≤ now2 →
  clearOldSyncedTransactions now2 userId daysOld
    (clearOldSyncedTransactions now1 userId daysOld db)
  = clearOldSyncedTransactions now2 userId daysOld db ∧
  clearOldSyncedTransactions now1 userId daysOld
    (clearOldSyncedTransactions now2 userId daysOld db)
  = clearOldSyncedTransactions now2 userId daysOld db.
Proof.
  intros Hle. unfold clearOldSyncedTransactions, set_transactions. simpl.
  split; f_equal; rewrite list_filter_filter; apply list_filter_iff;
    intros tx.
  - split; [by intros [? _]|]. intros Hn. split; [done|].
    intros Ho. apply Hn. by apply (old_synced_mono now1 now2).
  - split; [by intros [_ ?]|]. intros Hn. split; [|done].
    intros Ho. apply Hn. by apply (old_synced_mono now1 now2).
Qed.

Lemma purge_absorbs_earlier_witness :
  clearOldSyncedTransactions 9000000000 "u" None
    (clearOldSyncedTransactions 8000000000 "u" None sample_db)
  = clearOldSyncedTransactions 9000000000 "u" None sample_db.
Proof.
  apply (purge_absorbs_earlier 8000000000 9000000000 "u" None sample_db).
  lia.
Defined.

(** X18. Recomputing the wallet twice is recomputing it once. *)
Theorem recompute_idempotent userId db :
  updateWalletPendingAmounts userId (updateWalletPendingAmounts userId db)
  = updateWalletPendingAmounts userId db.
Proof.
  unfold updateWalletPendingAmounts.
  destruct (getWalletState userId db) as [w|] eqn:Hw; [|by rewrite Hw].
  unfold getWalletState, updateWalletState, getPendingTransactions in *.
  simpl.
  destruct (decide (wallet_id w = userId)) as [Heq|Hne].
  - rewrite Heq, lookup_insert_eq. simpl. by rewrite insert_insert_eq.
  - rewrite lookup_insert_ne, Hw by done. simpl. by rewrite insert_insert_eq.
Qed.

(** ** Staleness *)

Lemma checkWalletStaleness_mono now now' userId db :
  now ≤ now' →
  checkWalletStaleness now userId db = true →
  checkWalletStaleness now' userId db = true.
Proof.
  unfold checkWalletStaleness. intros Hle.
  destruct (getWalletState userId db) as [w|]; [|done].
  destruct (last_sync_success w) as [t|]; [|done].
  destruct (t =? 0); [done|].
  rewrite !Z.ltb_lt. lia.
Qed.

(** Each operation that does not record a success keeps wallet records
    under their own id, and keeps a stale wallet stale. *)
Lemma run_op_stale now u db op :
  ¬ records_success u op →
  wallet_keyed db →
  checkWalletStaleness now u db = true →
  wallet_keyed (run_op db op) ∧
  checkWalletStaleness now u (run_op db op) = true.
Proof.
  intros Hop Hk Hstale.
  destruct op as [tx|w|ids|t oid st b|t v d|t v d|v|env rpc v];
    simpl; try done.
  - simpl in Hop.
    unfold checkWalletStaleness, getWalletState, updateWalletState,
      wallet_keyed in *. simpl. split.
    + intros k w' Hl. destruct (decide (wallet_id w = k)) as [<-|Hne].
      * rewrite lookup_insert_eq in Hl. by injection Hl as <-.
      * rewrite lookup_insert_ne in Hl by done. by apply Hk.
    + destruct (decide (wallet_id w = u)) as [Heq|Hne].
      * rewrite Heq, lookup_insert_eq.
        destruct (last_sync_success w) eqn:Hlss; [|done].
        exfalso. apply Hop. by split.
      * by rewrite lookup_insert_ne.
  - unfold updateWalletPendingAmounts.
    destruct (getWalletState v db) as [w|] eqn:Hw; [|done].
    pose proof (Hk _ _ Hw) as Hid.
    unfold checkWalletStaleness, getWalletState, updateWalletState,
      wallet_keyed in *. simpl. rewrite Hid. split.
    + intros k w' Hl. destruct (decide (v = k)) as [->|Hne].
      * rewrite lookup_insert_eq in Hl. by injection Hl as <-.
      * rewrite lookup_insert_ne in Hl by done. by apply Hk.
    + destruct (decide (v = u)) as [->|Hne].
      * rewrite lookup_insert_eq. simpl. by rewrite Hw in Hstale.
      * by rewrite lookup_insert_ne.
  - destruct (syncOfflineTransactions env rpc v db) as [res db'] eqn:Hsync.
    simpl.
    apply sync_cases in Hsync
      as [[_ ->]|[(_ & -> & _)|(r & _ & _ & _ & _ & _ & _ & Hw)]];
      try done.
    unfold checkWalletStaleness, getWalletState, wallet_keyed in *.
    rewrite Hw. destruct (new_balance r) as [bal|]; [|done]. split.
    + intros k w' Hl. destruct (decide (v = k)) as [->|Hne].
      * rewrite lookup_insert_eq in Hl. by injection Hl as <-.
      * rewrite lookup_insert_ne in Hl by done. by apply Hk.
    + destruct (decide (v = u)) as [->|Hne].
      * by rewrite lookup_insert_eq.
      * by rewrite lookup_insert_ne.
Qed.

(** X19. A successful sync is recorded by a direct [updateWalletState]
    or not at all: starting from a store whose wallet records are kept
    under their own ids, a sequence of exported writes of [db.ts]
    (additions, wallet writes, status changes, purges, recomputations)
    and sync cycles, none of which is a wallet write for the user with a
    [last_sync_success], leaves a wallet that is stale at some time stale
    at that and any later time.  The sync cycle itself never clears
    staleness. *)
Theorem staleness_never_cleared now now' u db ops :
  wallet_keyed db →
  Forall (fun op => ¬ records_success u op) ops →
  checkWalletStaleness now u db = true →
  now ≤ now' →
  checkWalletStaleness now' u (run_ops db ops) = true.
Proof.
  intros Hk Hops Hstale Hle. apply (checkWalletStaleness_mono now); [done|].
  unfold run_ops. revert db Hk Hstale.
  induction Hops as [|op ops Hop _ IH]; intros db Hk Hstale; simpl; [done|].
  destruct (run_op_stale now u db op Hop Hk Hstale) as [Hk' Hs']. by apply IH.
Qed.

Lemma staleness_never_cleared_witness :
  checkWalletStaleness 90000000 "u"
    (run_ops sample_db
       [OpSync sample_env (supabase_rpc 1 (Some "u") sample_server) "u";
        OpUpdateWallet (synced_wallet "u" 5000 6000);
        OpRecompute "u"])
  = true.
Proof.
  apply (staleness_never_cleared 86405000 90000000 "u" sample_db
    [OpSync sample_env (supabase_rpc 1 (Some "u") sample_server) "u";
     OpUpdateWallet (synced_wallet "u" 5000 6000);
     OpRecompute "u"]).
  - intros k w Hl. unfold sample_db in Hl. simpl in Hl.
    apply lookup_singleton_Some in Hl as [<- <-]. reflexivity.
  - repeat constructor; simpl; try tauto; intros [_ H]; by apply H.
  - reflexivity.
  - lia.
Defined.

(** * The sync queue *)

Lemma queue_item_status tx : item_status (queue_item tx) = sync_status tx.
Proof. reflexivity. Qed.

Lemma existsb_false_Forall {A} (f : A → bool) (l : list A) :
  Forall (fun x => f x = false) l → existsb f l = false.
Proof. induction 1 as [|x l Hx _ IH]; simpl; [done|]. by rewrite Hx, IH. Qed.

(** X20. In the queue of a user every item is pending, syncing or failed:
    the two counters of the drawer add up to the length of the queue, the
    flag for conflicts is never raised, and the flag for failures is raised
    exactly when the failure counter is positive.  The queue lists the
    user's entries in these three states, in store order. *)
Theorem queue_counts userId db :
  userId ≠ EmptyString →
  let q := useSyncQueue (Some userId) db in
  (pendingCount (queueItems q) + failedCount (queueItems q) = queueCount q)%nat ∧
  hasConflicts q = false ∧
  (hasFailed q = true ↔ (0 < failedCount (queueItems q))%nat) ∧
  (hasPending q = true ↔ (0 < pendingCount (queueItems q))%nat) ∧
  item_id <$> queueItems q
  = offline_id
      <$> filter (fun tx => user_id tx = userId
                            ∧ (sync_status tx = pending
                               ∨ sync_status tx = syncing
                               ∨ sync_status tx = failed))
            (transactions db).
Proof.
  intros Huser. simpl. rewrite decide_False by done.
  unfold getSyncQueueItems, failedCount, pendingCount.
  assert (Forall (fun item => item_status item = pending
                              ∨ item_status item = syncing
                              ∨ item_status item = failed)
            (queue_item
               <$> filter (fun tx => user_id tx = userId ∧ queued tx)
                     (transactions db))) as Hall.
  { apply Forall_fmap, Forall_forall. intros tx [[_ Hq] _]%list_elem_of_filter.
    simpl. unfold queued in Hq.
    repeat (apply elem_of_cons in Hq as [Hq|Hq]; [tauto|]).
    by apply elem_of_nil in Hq. }
  revert Hall.
  generalize (queue_item
                <$> filter (fun tx => user_id tx = userId ∧ queued tx)
                      (transactions db)) at 1 2 3 4 5 6 7 8 9.
  intros items Hall. split_and!.
  - induction Hall as [|item items Hitem _ IH]; [done|].
    rewrite !filter_cons. simpl.
    destruct Hitem as [Hs|[Hs|Hs]]; rewrite Hs; simpl; lia.
  - apply existsb_false_Forall. eapply Forall_impl; [exact Hall|].
    intros item [Hs|[Hs|Hs]]; by rewrite Hs.
  - clear Hall. induction items as [|item items IH]; simpl; [split; [done|lia]|].
    rewrite filter_cons, orb_true_iff, IH, bool_decide_eq_true.
    case_decide; simpl; [split; [lia|by left]|].
    split; [by intros [?|?]|by right].
  - clear Hall. induction items as [|item items IH]; simpl; [split; [done|lia]|].
    rewrite filter_cons, !orb_true_iff, IH, !bool_decide_eq_true.
    case_decide; simpl; [split; [lia|by left]|].
    split; [intros [?|?]; [done|done]|by right].
  - rewrite <- list_fmap_compose. simpl.
    erewrite (list_filter_iff (fun tx => user_id tx = userId ∧ queued tx)).
    + reflexivity.
    + intros tx. unfold queued. rewrite !elem_of_cons, elem_of_nil. tauto.
Qed.

Lemma queue_counts_witness :
  (pendingCount (queueItems (useSyncQueue (Some "u") failed_db))
   + failedCount (queueItems (useSyncQueue (Some "u") failed_db))
   = queueCount (useSyncQueue (Some "u") failed_db))%nat ∧
  hasConflicts (useSyncQueue (Some "u") failed_db) = false.
Proof.
  destruct (queue_counts "u" failed_db) as (H1 & H2 & _).
  - discriminate.
  - split; [exact H1 | exact H2].
Defined.

Lemma getSyncQueueItems_nil userId db :
  getSyncQueueItems userId db = []
  ↔ ∀ tx, tx ∈ transactions db → user_id tx = userId →
          sync_status tx = synced ∨ sync_status tx = conflict.
Proof.
  unfold getSyncQueueItems. split.
  - intros Hnil%fmap_nil_inv tx Hin Hu.
    assert (¬ queued tx) as Hq.
    { intros Hq. by apply (filter_nil_not_elem_of _ _ tx Hnil). }
    unfold queued in Hq. rewrite !elem_of_cons, elem_of_nil in Hq.
    destruct (sync_status tx); tauto.
  - intros Hall. rewrite filter_none; [done|].
    intros tx Hin [Hu Hq]. unfold queued in Hq.
    rewrite !elem_of_cons, elem_of_nil in Hq.
    destruct (Hall tx Hin Hu) as [Hs|Hs]; rewrite Hs in Hq;
      decompose [or] Hq; done.
Qed.

(** X21. The queue covers the batch, and its "All synced" sign means there
    is nothing to send: the ids of the next batch are among the ids of the
    queue, in the same order; the sign is shown exactly when every entry of
    the user is synced or in conflict; and when it is shown, a sync cycle
    changes nothing, whatever the environment and the server. *)
Theorem all_synced_nothing_to_send userId db :
  userId ≠ EmptyString →
  let q := useSyncQueue (Some userId) db in
  sublist (offline_id <$> getPendingTransactions userId db)
    (item_id <$> queueItems q) ∧
  (shows_all_synced (queueCount q) (hasFailed q) = true
   ↔ ∀ tx, tx ∈ transactions db → user_id tx = userId →
           sync_status tx = synced ∨ sync_status tx = conflict) ∧
  (shows_all_synced (queueCount q) (hasFailed q) = true →
   ∀ env rpc, snd (syncOfflineTransactions env rpc userId db) = db).
Proof.
  intros Huser. simpl. rewrite decide_False by done.
  assert (shows_all_synced (length (getSyncQueueItems userId db))
            (existsb (fun item => bool_decide (item_status item = failed))
               (getSyncQueueItems userId db)) = true
          ↔ getSyncQueueItems userId db = []) as Hpill.
  { unfold shows_all_synced.
    destruct (getSyncQueueItems userId db) as [|item items]; simpl; [done|].
    split; done. }
  split_and!.
  - unfold getSyncQueueItems, getPendingTransactions.
    rewrite <- list_fmap_compose.
    change (item_id ∘ queue_item) with offline_id.
    apply fmap_sublist.
    rewrite (list_filter_iff _
               (fun tx => sync_status tx = pending
                          ∧ (user_id tx = userId ∧ queued tx))).
    + rewrite <- list_filter_filter. apply sublist_filter.
    + intros tx. unfold queued. rewrite !elem_of_cons. tauto.
  - rewrite Hpill. apply getSyncQueueItems_nil.
  - rewrite Hpill, getSyncQueueItems_nil. intros Hall env rpc.
    assert (getPendingTransactions userId db = []) as Hp.
    { unfold getPendingTransactions. apply filter_none.
      intros tx Hin [Hu Hs]. destruct (Hall tx Hin Hu); congruence. }
    unfold syncOfflineTransactions. rewrite Hp. simpl.
    destruct (online env); simpl; [|done].
    by destruct (supabase_configured env).
Qed.

Lemma all_synced_nothing_to_send_witness :
  sublist (offline_id <$> getPendingTransactions "u" sample_db)
    (item_id <$> queueItems (useSyncQueue (Some "u") sample_db)).
Proof.
  destruct (all_synced_nothing_to_send "u" sample_db) as [H _].
  - discriminate.
  - exact H.
Defined.

(** The first entry with a given id after one failed attempt. *)
Lemma updateTransactionStatus_first now oid status tx db :
  head (filter (fun t => offline_id t = oid) (transactions db)) = Some tx →
  head (filter (fun t => offline_id t = oid)
          (transactions (updateTransactionStatus now oid status true db)))
  = Some (modify (mkUpdates (Some status) (Some now)
                    (Some (default 0 (retry_count tx) + 1))) tx).
Proof.
  intros Hhd. unfold updateTransactionStatus. simpl. rewrite Hhd.
  rewrite filter_offline_id_fmap.
  - destruct (filter _ (transactions db)) as [|t l] eqn:Hf; [done|].
    simpl in *. injection Hhd as ->.
    assert (tx ∈ filter (fun t => offline_id t = oid) (transactions db))
      as [Hoid _]%list_elem_of_filter by (rewrite Hf; left).
    by case_decide.
  - intros t. by case_decide.
Qed.

(** X22. Failures only count up: after one or more failed attempts
    recorded with [updateTransactionStatus(id, 'failed', true)], the entry
    is failed, its retry count is the old one (zero when absent) plus the
    number of attempts, its last attempt is the latest one, and the drawer
    offers a retry exactly while that count is below 5.  The entry is never
    turned into a conflict by this. *)
Theorem retry_count_after_failures nows now oid tx db :
  head (filter (fun t => offline_id t = oid) (transactions db)) = Some tx →
  let db' :=
    foldl (fun d t => updateTransactionStatus t oid failed true d) db
      (nows ++ [now]) in
  let tx' :=
    modify (mkUpdates (Some failed) (Some now)
              (Some (default 0 (retry_count tx)
                     + Z.of_nat (length (nows ++ [now]))))) tx in
  head (filter (fun t => offline_id t = oid) (transactions db')) = Some tx' ∧
  sync_status tx' = failed ∧
  showRetry (queue_item tx')
  = bool_decide (default 0 (retry_count tx)
                 + Z.of_nat (length (nows ++ [now])) < 5).
Proof.
  intros Hhd. simpl.
  assert (head (filter (fun t => offline_id t = oid)
                  (transactions
                     (foldl (fun d t => updateTransactionStatus t oid failed true d)
                        db (nows ++ [now]))))
          = Some (modify (mkUpdates (Some failed) (Some now)
                            (Some (default 0 (retry_count tx)
                                   + Z.of_nat (length (nows ++ [now]))))) tx))
    as Hres.
  { revert now. induction nows as [|t nows IH] using rev_ind; intros now.
    - exact (updateTransactionStatus_first now oid failed tx db Hhd).
    - rewrite foldl_snoc. cbv beta.
      rewrite (updateTransactionStatus_first _ _ _ _ _ (IH t)).
      f_equal. destruct tx. unfold modify. simpl. f_equal. f_equal.
      rewrite !length_app. simpl. lia. }
  split; [done|]. split; [done|].
  unfold showRetry. simpl.
  destruct (Z.ltb_spec (default 0 (retry_count tx)
                        + Z.of_nat (length (nows ++ [now]))) 5).
  - by rewrite bool_decide_eq_true_2.
  - rewrite bool_decide_eq_false_2; [done|lia].
Qed.

Lemma retry_count_after_failures_witness :
  head (filter (fun t => offline_id t = "a")
          (transactions
             (foldl (fun d t => updateTransactionStatus t "a" failed true d)
                sample_db ([10; 20] ++ [30]))))
  = Some (modify (mkUpdates (Some failed) (Some 30) (Some 3)) sample_debit).
Proof.
  destruct (retry_count_after_failures [10; 20] 30 "a" sample_debit sample_db)
    as [H _].
  - reflexivity.
  - exact H.
Defined.

(** * Account creation *)

(** X23. The starting balance is clamped: when the trigger of the
    migration returns, the new profile holds the requested balance brought
    into the range from 0 to 10,000,000.00, or 10,000.00 when none was
    requested, and has never been synced; nothing else changes.  Without a
    requested balance it does what the trigger of the initial schema
    does. *)
Theorem new_user_balance_clamped new_id initial_balance s s' :
  handle_new_user_custom new_id initial_balance s = Returned s' →
  ∃ b,
    profiles s' !! new_id = Some {| balance := b; last_synced_at := None |} ∧
    0 ≤ b ≤ 1000000000 ∧
    b = match initial_balance with
        | Some v => Z.max 0 (Z.min v 1000000000)
        | None => 1000000
        end ∧
    profiles s !! new_id = None ∧
    (∀ uid, uid ≠ new_id → profiles s' !! uid = profiles s !! uid) ∧
    sql_transactions s' = sql_transactions s ∧
    handle_new_user_custom new_id None s = handle_new_user new_id s.
Proof.
  unfold handle_new_user_custom, handle_new_user.
  destruct initial_balance as [v|]; simpl.
  - destruct (numeric_12_2 v); simpl; [|done].
    destruct (profiles s !! new_id) eqn:Hp; [done|].
    intros [= <-]. simpl. eexists. split; [apply lookup_insert_eq|].
    assert ((if 1000000000 <? (if v <? 0 then 0 else v) then 1000000000
             else if v <? 0 then 0 else v)
            = Z.max 0 (Z.min v 1000000000)) as ->.
    { destruct (Z.ltb_spec v 0); destruct (Z.ltb_spec 1000000000 v);
        try destruct (Z.ltb_spec 1000000000 0); lia. }
    split_and!; try done; try lia.
    intros uid Hne. by rewrite lookup_insert_ne.
  - destruct (profiles s !! new_id) eqn:Hp; [done|].
    intros [= <-]. simpl. eexists. split; [apply lookup_insert_eq|].
    split_and!; try done; try lia.
    intros uid Hne. by rewrite lookup_insert_ne.
Qed.

Lemma new_user_balance_clamped_witness :
  ∃ b, 0 ≤ b ≤ 1000000000 ∧ b = Z.max 0 (Z.min 5600000 1000000000).
Proof.
  destruct (new_user_balance_clamped "v" (Some 5600000) sample_server
    (mkServer (<["v" := mkProfile 5600000 None]> (profiles sample_server)) []))
    as (b & _ & H1 & H2 & _).
  - reflexivity.
  - exists b. split; [exact H1 | exact H2].
Defined.

(** * Payment requests *)

Lemma adjust_balance_cases now uid delta profs profs' :
  adjust_balance now uid delta profs = Returned profs' →
  (profs !! uid = None ∧ profs' = profs)
  ∨ (∃ p, profs !! uid = Some p ∧
          profs' = <[uid := {| balance := balance p + delta;
                               last_synced_at := Some now |}]> profs).
Proof.
  unfold adjust_balance. destruct (profs !! uid) as [p|]; [|intros [= <-]; by left].
  destruct (numeric_12_2 _); [|done]. intros [= <-]. right. by exists p.
Qed.

Lemma insert_request_row_cases profs row recipient rows rows' :
  insert_request_row profs row recipient rows = Returned rows' →
  is_Some (profs !! row_user_id row) ∧
  (row_offline_id row ∉ (row_offline_id ∘ fst) <$> rows) ∧
  rows' = rows ++ [(row, Some recipient)].
Proof.
  unfold insert_request_row. case_bool_decide as Hdup; [done|].
  case_bool_decide as Hfk; simpl; [|done]. by intros [= <-].
Qed.

(** What an approval that goes through has done. *)
Lemma respond_approved now auth_uid request_id approve s s' :
  respond_to_request now auth_uid request_id approve s
  = Returned (ReplyStatus request_approved, s') →
  ∃ r pp rp,
    payment_requests s !! request_id = Some r ∧
    request_status r = request_pending ∧
    auth_uid = Some (payer_id r) ∧
    p2p_profiles s !! payer_id r = Some pp ∧
    p2p_profiles s !! requester_id r = Some rp ∧
    request_amount r ≤ balance pp ∧
    p2p_profiles s'
    = (if decide (requester_id r = payer_id r)
       then <[payer_id r := {| balance := balance pp - request_amount r
                                          + request_amount r;
                               last_synced_at := Some now |}]>
       else <[requester_id r := {| balance := balance rp + request_amount r;
                                   last_synced_at := Some now |}]>)
        (<[payer_id r := {| balance := balance pp - request_amount r;
                            last_synced_at := Some now |}]> (p2p_profiles s)) ∧
    payment_requests s'
    = <[request_id := {| requester_id := requester_id r;
                         payer_id := payer_id r;
                         request_amount := request_amount r;
                         request_description := request_description r;
                         request_status := request_approved;
                         responded_at := Some now |}]> (payment_requests s) ∧
    (∃ pay rcv,
       p2p_transactions s' = p2p_transactions s ++ [pay; rcv] ∧
       row_user_id (fst pay) = payer_id r ∧ row_type (fst pay) = debit ∧
       row_amount (fst pay) = request_amount r ∧
       snd pay = Some (requester_id r) ∧
       row_user_id (fst rcv) = requester_id r ∧ row_type (fst rcv) = credit ∧
       row_amount (fst rcv) = request_amount r ∧
       snd rcv = Some (payer_id r)).
Proof.
  unfold respond_to_request.
  destruct auth_uid as [payer|]; [|done].
  destruct (payment_requests s !! request_id) as [r|] eqn:Hr; [|done].
  case_decide as Hpayer; [done|]. subst payer.
  case_decide as Hst; [done|].
  destruct approve; [|done].
  destruct (p2p_profiles s !! payer_id r) as [pp|] eqn:Hpp.
  - destruct (Z.ltb_spec (balance pp) (request_amount r)); [done|].
    destruct (adjust_balance now (payer_id r) _ _) as [profs1|] eqn:H1;
      [|done]. simpl.
    destruct (adjust_balance now (requester_id r) _ profs1) as [profs2|] eqn:H2;
      [|done]. simpl.
    destruct (insert_request_row profs2 _ _ _) as [rows1|] eqn:Hi1; [|done].
    simpl.
    destruct (insert_request_row profs2 _ _ rows1) as [rows2|] eqn:Hi2; [|done].
    simpl. intros [= <-].
    apply adjust_balance_cases in H1 as [[Hn _]|(p & Hp & ->)];
      [congruence|]. rewrite Hpp in Hp. injection Hp as <-.
    apply insert_request_row_cases in Hi1 as (_ & _ & ->).
    apply insert_request_row_cases in Hi2 as (Hfk & _ & ->). simpl in Hfk.
    replace (balance pp + - request_amount r)
      with (balance pp - request_amount r) in * by lia.
    apply adjust_balance_cases in H2 as [[Hn ->]|(p & Hp & ->)].
    { rewrite Hn in Hfk. by destruct Hfk. }
    destruct (decide (requester_id r = payer_id r)) as [Heq|Hne].
    + rewrite Heq in *. rewrite lookup_insert_eq in Hp. injection Hp as <-.
      exists r, pp, pp. simpl. rewrite Heq.
      split_and!; try done.
      * by rewrite decide_True.
      * eexists _, _. rewrite <- app_assoc. simpl. split_and!; done.
    + rewrite lookup_insert_ne in Hp by done.
      exists r, pp, p. simpl. split_and!; try done.
      * by rewrite decide_False.
      * eexists _, _. rewrite <- app_assoc. simpl. split_and!; done.
  - simpl.
    destruct (adjust_balance now (payer_id r) _ _) as [profs1|] eqn:H1;
      [|done]. simpl.
    destruct (adjust_balance now (requester_id r) _ profs1) as [profs2|] eqn:H2;
      [|done]. simpl.
    destruct (insert_request_row profs2 _ _ _) as [rows1|] eqn:Hi1; [|done].
    apply insert_request_row_cases in Hi1 as (Hfk & _ & _). simpl in Hfk.
    apply adjust_balance_cases in H1 as [[_ ->]|(p & Hp & _)];
      [|congruence].
    apply adjust_balance_cases in H2 as [[_ ->]|(p & Hp & ->)].
    + rewrite Hpp in Hfk. by destruct Hfk.
    + destruct (decide (requester_id r = payer_id r)) as [Heq|Hne];
        [congruence|].
      rewrite lookup_insert_ne in Hfk by done.
      rewrite Hpp in Hfk. by destruct Hfk.
Qed.

(** X24. An approved request moves its amount from the payer to the
    requester and nothing else: the caller is the payer of a pending
    request, holds at least the amount, and afterwards has that much less
    while the requester has that much more (a request to oneself leaves
    the balance as it was); every other profile is untouched, the request
    is approved, and the ledger has gained a debit row of the payer and a
    credit row of the requester for the amount. *)
Theorem approval_moves_money now auth_uid request_id s s' :
  respond_to_request now auth_uid request_id true s
  = Returned (ReplyStatus request_approved, s') →
  ∃ r pp rp,
    payment_requests s !! request_id = Some r ∧
    request_status r = request_pending ∧
    auth_uid = Some (payer_id r) ∧
    p2p_profiles s !! payer_id r = Some pp ∧
    p2p_profiles s !! requester_id r = Some rp ∧
    request_amount r ≤ balance pp ∧
    (requester_id r ≠ payer_id r →
     balance <$> p2p_profiles s' !! payer_id r
     = Some (balance pp - request_amount r) ∧
     balance <$> p2p_profiles s' !! requester_id r
     = Some (balance rp + request_amount r)) ∧
    (requester_id r = payer_id r →
     balance <$> p2p_profiles s' !! payer_id r = Some (balance pp)) ∧
    (∀ uid, uid ≠ payer_id r → uid ≠ requester_id r →
            p2p_profiles s' !! uid = p2p_profiles s !! uid) ∧
    request_status <$> payment_requests s' !! request_id
    = Some request_approved ∧
    (∃ pay rcv,
       p2p_transactions s' = p2p_transactions s ++ [pay; rcv] ∧
       row_user_id (fst pay) = payer_id r ∧ row_type (fst pay) = debit ∧
       row_amount (fst pay) = request_amount r ∧
       row_user_id (fst rcv) = requester_id r ∧ row_type (fst rcv) = credit ∧
       row_amount (fst rcv) = request_amount r).
Proof.
  intros (r & pp & rp & Hr & Hst & Hauth & Hpp & Hrp & Hle & Hprofs & Hreqs
          & pay & rcv & Hrows & ? & ? & ? & _ & ? & ? & ? & _)%respond_approved.
  exists r, pp, rp. split_and!; try done.
  - intros Hne. rewrite Hprofs, decide_False by done. split.
    + rewrite lookup_insert_ne, lookup_insert_eq by done. done.
    + by rewrite lookup_insert_eq.
  - intros Heq. rewrite Hprofs, decide_True by done.
    rewrite lookup_insert_eq. simpl. f_equal. lia.
  - intros uid Hu1 Hu2. rewrite Hprofs.
    case_decide; by rewrite !lookup_insert_ne.
  - by rewrite Hreqs, lookup_insert_eq.
  - by exists pay, rcv.
Qed.

Lemma approval_moves_money_witness :
  balance
    <$> p2p_profiles
          (state_after (respond_to_request 7 (Some "v") "r1" true sample_p2p)
             sample_p2p) !! "v"
  = Some (20000 - 10000) ∧
  balance
    <$> p2p_profiles
          (state_after (respond_to_request 7 (Some "v") "r1" true sample_p2p)
             sample_p2p) !! "u"
  = Some (5000 + 10000).
Proof.
  destruct (approval_moves_money 7 (Some "v") "r1" sample_p2p
              (state_after (respond_to_request 7 (Some "v") "r1" true sample_p2p)
                 sample_p2p))
    as (r & pp & rp & Hr & _ & _ & Hpp & Hrp & _ & Hmove & _).
  - vm_compute. reflexivity.
  - change (Some (mkRequest "u" "v" 10000 "rent" request_pending None) = Some r)
      in Hr.
    injection Hr as <-.
    change (Some (mkProfile 20000 None) = Some pp) in Hpp.
    change (Some (mkProfile 5000 None) = Some rp) in Hrp.
    injection Hpp as <-. injection Hrp as <-.
    apply Hmove. simpl. discriminate.
Defined.

(** What any answer that goes through has stored. *)
Lemma respond_status_stored now auth_uid request_id approve s status s' :
  respond_to_request now auth_uid request_id approve s
  = Returned (ReplyStatus status, s') →
  ∃ r,
    payment_requests s !! request_id = Some r ∧
    request_status r = request_pending ∧
    auth_uid = Some (payer_id r) ∧
    status = (if approve then request_approved else request_rejected) ∧
    payment_requests s'
    = <[request_id := {| requester_id := requester_id r;
                         payer_id := payer_id r;
                         request_amount := request_amount r;
                         request_description := request_description r;
                         request_status := status;
                         responded_at := Some now |}]> (payment_requests s) ∧
    user_emails s' = user_emails s ∧
    (approve = false →
     p2p_profiles s' = p2p_profiles s ∧
     p2p_transactions s' = p2p_transactions s).
Proof.
  unfold respond_to_request.
  destruct auth_uid as [payer|]; [|done].
  destruct (payment_requests s !! request_id) as [r|] eqn:Hr; [|done].
  case_decide as Hpayer; [done|]. subst payer.
  case_decide as Hst; [done|].
  destruct approve.
  - destruct (match p2p_profiles s !! payer_id r with
              | Some p => balance p <? request_amount r
              | None => false
              end); [done|].
    destruct (adjust_balance now (payer_id r) _ _) as [profs1|]; [|done].
    simpl.
    destruct (adjust_balance now (requester_id r) _ profs1) as [profs2|];
      [|done]. simpl.
    destruct (insert_request_row profs2 _ _ _) as [rows1|]; [|done]. simpl.
    destruct (insert_request_row profs2 _ _ rows1) as [rows2|]; [|done].
    simpl. intros [= <- <-]. exists r. by split_and!.
  - intros [= <- <-]. exists r. by split_and!.
Qed.

(** X25. A request is answered once: after an answer that went through,
    approval or rejection, every further answer to the same request, by
    anyone and at any time, is an error that changes nothing; for the payer
    the error is "Request already processed". *)
Theorem request_answered_once now auth_uid request_id approve s status s' :
  respond_to_request now auth_uid request_id approve s
  = Returned (ReplyStatus status, s') →
  ∀ now2 auth2 approve2,
    ∃ msg,
      respond_to_request now2 auth2 request_id approve2 s'
      = Returned (ReplyError msg, s') ∧
      (auth2 = auth_uid → msg = "Request already processed").
Proof.
  intros (r & Hr & Hst & Hauth & Hstatus & Hreqs & _)%respond_status_stored
    now2 auth2 approve2.
  unfold respond_to_request.
  destruct auth2 as [payer2|]; [|by eexists; split; [done|congruence]].
  rewrite Hreqs, lookup_insert_eq. simpl.
  case_decide as Hp; [eexists; split; [done|congruence]|].
  rewrite decide_True by (destruct approve; subst; done).
  by eexists.
Qed.

Lemma request_answered_once_witness :
  ∃ msg,
    respond_to_request 8 (Some "v") "r1" true
      (state_after (respond_to_request 7 (Some "v") "r1" false sample_p2p)
         sample_p2p)
    = Returned (ReplyError msg,
                state_after (respond_to_request 7 (Some "v") "r1" false sample_p2p)
                  sample_p2p) ∧
    msg = "Request already processed".
Proof.
  destruct (request_answered_once 7 (Some "v") "r1" false sample_p2p
              request_rejected
              (state_after (respond_to_request 7 (Some "v") "r1" false sample_p2p)
                 sample_p2p)) with (now2 := 8) (auth2 := Some "v")
              (approve2 := true) as (msg & H1 & H2).
  - vm_compute. reflexivity.
  - exists msg. split; [exact H1 | exact (H2 eq_refl)].
Defined.

(** X26. Only the payer of a pending request changes anything: a call
    that returns either reports an error and leaves the state as it was,
    or was made by the payer of the request while it was pending; it then
    answers with the status asked for, touches no other request, and, for a
    rejection, no balance and no ledger row. *)
Theorem respond_error_or_payer now auth_uid request_id approve s reply s' :
  respond_to_request now auth_uid request_id approve s = Returned (reply, s') →
  (∃ msg, reply = ReplyError msg ∧ s' = s)
  ∨ (∃ r,
       payment_requests s !! request_id = Some r ∧
       request_status r = request_pending ∧
       auth_uid = Some (payer_id r) ∧
       reply = ReplyStatus
                 (if approve then request_approved else request_rejected) ∧
       (∀ other, other ≠ request_id →
                 payment_requests s' !! other = payment_requests s !! other) ∧
       (approve = false →
        p2p_profiles s' = p2p_profiles s ∧
        p2p_transactions s' = p2p_transactions s)).
Proof.
  intros Hcall. destruct reply as [msg|rid|status].
  - left. exists msg. split; [done|]. revert Hcall.
    unfold respond_to_request.
    destruct auth_uid as [payer|]; [|by intros [= _ <-]].
    destruct (payment_requests s !! request_id) as [r|];
      [|by intros [= _ <-]].
    case_decide; [by intros [= _ <-]|].
    case_decide; [by intros [= _ <-]|].
    destruct approve; [|done].
    destruct (match p2p_profiles s !! payer with
              | Some p => balance p <? request_amount r
              | None => false
              end); [by intros [= _ <-]|].
    destruct (adjust_balance now payer _ _) as [profs1|]; [|done]. simpl.
    destruct (adjust_balance now (requester_id r) _ profs1) as [profs2|];
      [|done]. simpl.
    destruct (insert_request_row profs2 _ _ _) as [rows1|]; [|done]. simpl.
    by destruct (insert_request_row profs2 _ _ rows1) as [rows2|].
  - exfalso. revert Hcall. unfold respond_to_request.
    destruct auth_uid as [payer|]; [|done].
    destruct (payment_requests s !! request_id) as [r|]; [|done].
    case_decide; [done|]. case_decide; [done|].
    destruct approve; [|done].
    destruct (match p2p_profiles s !! payer with
              | Some p => balance p <? request_amount r
              | None => false
              end); [done|].
    destruct (adjust_balance now payer _ _) as [profs1|]; [|done]. simpl.
    destruct (adjust_balance now (requester_id r) _ profs1) as [profs2|];
      [|done]. simpl.
    destruct (insert_request_row profs2 _ _ _) as [rows1|]; [|done]. simpl.
    by destruct (insert_request_row profs2 _ _ rows1) as [rows2|].
  - right.
    apply respond_status_stored in Hcall
      as (r & Hr & Hst & Hauth & -> & Hreqs & _ & Hrej).
    exists r. split_and!; try done.
    intros other Hne. by rewrite Hreqs, lookup_insert_ne.
Qed.

Lemma respond_error_or_payer_witness :
  (∃ msg, ReplyError "Not authorized" = ReplyError msg
          ∧ sample_p2p = sample_p2p)
  ∨ (∃ r,
       payment_requests sample_p2p !! "r1" = Some r ∧
       request_status r = request_pending ∧
       Some "u" = Some (payer_id r)).
Proof.
  destruct (respond_error_or_payer 7 (Some "u") "r1" true sample_p2p
              (ReplyError "Not authorized") sample_p2p)
    as [H|(r & H1 & H2 & H3 & _)].
  - vm_compute. reflexivity.
  - left. exact H.
  - right. exists r. split; [exact H1|]. split; [exact H2 | exact H3].
Defined.

(** X27. A request that is created is a pending request of a positive
    amount from the caller to another user, the one with the given e-mail
    address, both with a profile; creating it moves no money, adds no
    ledger row and touches no other request.  Every other call that
    returns reports an error and changes nothing. *)
Theorem created_request_is_pending auth_uid new_id email amount desc s reply s' :
  create_payment_request auth_uid new_id email amount desc s
  = Returned (reply, s') →
  (∃ msg, reply = ReplyError msg ∧ s' = s)
  ∨ (∃ requester payer,
       auth_uid = Some requester ∧
       user_emails s !! email = Some payer ∧
       payer ≠ requester ∧
       0 < amount ∧
       is_Some (p2p_profiles s !! requester) ∧
       is_Some (p2p_profiles s !! payer) ∧
       reply = ReplyCreated new_id ∧
       payment_requests s !! new_id = None ∧
       payment_requests s' !! new_id
       = Some {| requester_id := requester; payer_id := payer;
                 request_amount := amount; request_description := desc;
                 request_status := request_pending; responded_at := None |} ∧
       (∀ other, other ≠ new_id →
                 payment_requests s' !! other = payment_requests s !! other) ∧
       p2p_profiles s' = p2p_profiles s ∧
       p2p_transactions s' = p2p_transactions s).
Proof.
  unfold create_payment_request.
  destruct auth_uid as [requester|];
    [|intros [= <- <-]; left; by eexists].
  destruct (user_emails s !! email) as [payer|] eqn:He;
    [|intros [= <- <-]; left; by eexists].
  case_decide as Hself; [intros [= <- <-]; left; by eexists|].
  destruct (numeric_12_2 amount); simpl; [|done].
  destruct (Z.ltb_spec 0 amount); simpl; [|done].
  case_bool_decide as Hnew; [done|].
  case_bool_decide as Hr; simpl; [|done].
  case_bool_decide as Hp; simpl; [|done].
  intros [= <- <-]. right. exists requester, payer. simpl.
  split_and!; try done.
  - destruct (payment_requests s !! new_id) eqn:Hl; [|done].
    exfalso. apply Hnew. by eexists.
  - by rewrite lookup_insert_eq.
  - intros other Hne. by rewrite lookup_insert_ne.
Qed.

Lemma created_request_is_pending_witness :
  (∃ msg, ReplyCreated "r2" = ReplyError msg)
  ∨ (∃ requester payer,
       Some "v" = Some requester ∧
       user_emails sample_p2p !! "u@example.org" = Some payer ∧
       payer ≠ requester ∧ 0 < 2500).
Proof.
  destruct (created_request_is_pending (Some "v") "r2" "u@example.org" 2500
              "lunch" sample_p2p (ReplyCreated "r2")
              (state_after (create_payment_request (Some "v") "r2"
                              "u@example.org" 2500 "lunch" sample_p2p)
                 sample_p2p))
    as [(msg & H & _)|(rq & py & H1 & H2 & H3 & H4 & _)].
  - vm_compute. reflexivity.
  - left. exists msg. exact H.
  - right. exists rq, py. split; [exact H1|]. split; [exact H2|].
    split; [exact H3 | exact H4].
Defined.
